(** * QuickSearch: search-result parsing and readable-content extraction

    A shallow embedding of [main.py]: the two scraping routines
    ([search_duckduckgo], [read_url]) and the two handlers built on them
    ([search], [read]).

    The HTML parsing library and the HTTP client are collaborators of the
    program, not part of it.  The parsed document is therefore taken as a
    tree of nodes, the tree queries the program calls ([find], [find_all],
    [select], [select_one], [decompose], [get_text]) are written out over
    that tree, and the HTTP client and the parser entry point are
    parameters of the effectful code. *)

From Stdlib Require Import List String Ascii Bool ZArith Lia.
Import ListNotations.
Local Open Scope string_scope.
Local Open Scope list_scope.
Set Warnings "-register-all".

(** ** Text *)

Module Text.

(** Characters stand for the code points below 256.  [isspace] is what
    Python's [str.isspace] answers on them. *)
Definition isspace (c : ascii) : bool :=
  let n := nat_of_ascii c in
  (((9 <=? n) && (n <=? 13)) || ((28 <=? n) && (n <=? 32))
   || (n =? 133) || (n =? 160))%nat.

Definition newline : ascii := ascii_of_nat 10.

Definition is_newline (c : ascii) : bool := Ascii.eqb c newline.

Definition nl : string := String newline EmptyString.

Fixpoint lstrip (s : string) : string :=
  match s with
  | EmptyString => EmptyString
  | String c r => if isspace c then lstrip r else s
  end.

Fixpoint rstrip (s : string) : string :=
  match s with
  | EmptyString => EmptyString
  | String c r =>
      match rstrip r with
      | EmptyString => if isspace c then EmptyString else String c EmptyString
      | r' => String c r'
      end
  end.

(** [s.strip()] *)
Definition strip (s : string) : string := rstrip (lstrip s).

(** [len(s) == 0] *)
Definition is_empty (s : string) : bool :=
  match s with EmptyString => true | _ => false end.

(** [sep.join(parts)] *)
Fixpoint join (sep : string) (parts : list string) : string :=
  match parts with
  | [] => EmptyString
  | [p] => p
  | p :: rest => p ++ sep ++ join sep rest
  end.

(** [pattern.search(s)] for a pattern that is a plain word: does [sub]
    occur somewhere in [s]. *)
Fixpoint contains (sub s : string) : bool :=
  String.prefix sub s
  || match s with
     | EmptyString => false
     | String _ r => contains sub r
     end.

(** [re.sub(r"\n+", "\n", s)].  The scanner copies characters; on a newline
    it opens a match, which swallows the newlines that follow, and writes
    the replacement once.  [in_match] says that the previous character
    belonged to a match. *)
Fixpoint sub_newlines (in_match : bool) (s : string) : string :=
  match s with
  | EmptyString => EmptyString
  | String c r =>
      if is_newline c
      then if in_match then sub_newlines true r
           else String newline (sub_newlines true r)
      else String c (sub_newlines false r)
  end.

Definition re_sub_newlines (s : string) : string := sub_newlines false s.

(** No two adjacent newline characters. *)
Fixpoint no_blank_line (s : string) : Prop :=
  match s with
  | EmptyString => True
  | String c r =>
      match r with
      | EmptyString => True
      | String d _ => ~ (is_newline c = true /\ is_newline d = true)
      end /\ no_blank_line r
  end.

(** [k] newlines in a row. *)
Fixpoint newlines (k : nat) : string :=
  match k with
  | O => EmptyString
  | S k' => String newline (newlines k')
  end.

Definition starts_with_newline (s : string) : bool :=
  match s with
  | String c _ => is_newline c
  | EmptyString => false
  end.

Fixpoint ends_with_newline (s : string) : bool :=
  match s with
  | EmptyString => false
  | String c EmptyString => is_newline c
  | String _ r => ends_with_newline r
  end.

Fixpoint remove_newlines (s : string) : string :=
  match s with
  | EmptyString => EmptyString
  | String c r =>
      if is_newline c then remove_newlines r else String c (remove_newlines r)
  end.

Definition starts_with_space (s : string) : bool :=
  match s with
  | String c _ => isspace c
  | EmptyString => false
  end.

Fixpoint ends_with_space (s : string) : bool :=
  match s with
  | EmptyString => false
  | String c EmptyString => isspace c
  | String _ r => ends_with_space r
  end.

End Text.

(** ** The document tree *)

Module Dom.

(** A node of the parsed tree: an element with its name, the value of its
    [class] attribute (a list of tokens, [None] when the attribute is
    absent), its other attributes and its children; a text node; or a
    string node that [get_text] on an element above it passes over
    (comment, doctype, and the strings that script, style and template
    elements hold, which the parser gives classes of their own). *)
Inductive node : Type :=
| Tag (name : string) (class_ : option (list string))
      (attrs : list (string * string)) (contents : list node)
| NavigableString (s : string)
| Comment (s : string).

Definition contents (n : node) : list node :=
  match n with
  | Tag _ _ _ cs => cs
  | _ => []
  end.

Definition is_tag (n : node) : bool :=
  match n with Tag _ _ _ _ => true | _ => false end.

Definition name_is (nm : string) (n : node) : bool :=
  match n with
  | Tag nm' _ _ _ => String.eqb nm' nm
  | _ => false
  end.

Definition name_in (names : list string) (n : node) : bool :=
  match n with
  | Tag nm' _ _ _ => existsb (String.eqb nm') names
  | _ => false
  end.

(** [el.get(key)] on an attribute other than [class]. *)
Fixpoint lookup (key : string) (attrs : list (string * string)) : option string :=
  match attrs with
  | [] => None
  | (k, v) :: rest => if String.eqb k key then Some v else lookup key rest
  end.

Definition get (key : string) (n : node) : option string :=
  match n with
  | Tag _ _ attrs _ => lookup key attrs
  | _ => None
  end.

(** The [descendants] generator: every node below [n], in document order
    (a node before its children, children left to right); [n] itself is
    not among them. *)
Fixpoint descendants (n : node) : list node :=
  match n with
  | Tag _ _ _ cs => flat_map (fun c => c :: descendants c) cs
  | _ => []
  end.

(** [n.find_all(...)] and [n.find(...)] with the criterion as a predicate. *)
Definition find_all (p : node -> bool) (n : node) : list node :=
  filter p (descendants n).

Definition find (p : node -> bool) (n : node) : option node :=
  List.find p (descendants n).

(** The CSS class selector [.cls]: an element one of whose class tokens is
    [cls].  [select cls n] is [n.select("." + cls)] and [select_one cls n]
    is [n.select_one("." + cls)]. *)
Definition has_class (cls : string) (n : node) : bool :=
  match n with
  | Tag _ (Some tokens) _ _ => existsb (String.eqb cls) tokens
  | _ => false
  end.

Definition select (cls : string) (n : node) : list node :=
  filter (has_class cls) (descendants n).

Definition select_one (cls : string) (n : node) : option node :=
  List.find (has_class cls) (descendants n).

(** [class_=re.compile(pattern)] for a pattern that is an alternation of
    plain words: the pattern is searched in each token, and then in the
    tokens joined by a space. *)
Definition class_matches (words : list string) (n : node) : bool :=
  match n with
  | Tag _ (Some tokens) _ _ =>
      existsb (fun tok => existsb (fun w => Text.contains w tok) words) tokens
      || existsb (fun w => Text.contains w (Text.join " " tokens)) words
  | _ => false
  end.

(** [for t in n(names): t.decompose()]: every element below [n] whose name
    is in [names] is taken out of the tree with all it contains. *)
Fixpoint decompose_all (names : list string) (n : node) : node :=
  match n with
  | Tag nm cl attrs cs =>
      Tag nm cl attrs
          (flat_map (fun c => if name_in names c then []
                              else [decompose_all names c]) cs)
  | _ => n
  end.

(** The strings [get_text] visits: the text nodes among the descendants. *)
Definition string_of (n : node) : list string :=
  match n with
  | NavigableString s => [s]
  | _ => []
  end.

Definition all_strings (n : node) : list string :=
  flat_map string_of (descendants n).

(** What [get_text] does with the strings when [strip=True]: each is
    stripped, and dropped when nothing is left. *)
Definition stripped (strings : list string) : list string :=
  filter (fun s => negb (Text.is_empty s)) (map Text.strip strings).

(** [n.get_text(separator=sep, strip=True)] *)
Definition get_text (sep : string) (n : node) : string :=
  Text.join sep (stripped (all_strings n)).

(** Each text node below [n] with the names of the elements it lies in,
    innermost first ([n] itself is not counted). *)
Fixpoint located_strings (inside : list string) (n : node)
  : list (list string * string) :=
  match n with
  | Tag _ _ _ cs =>
      flat_map (fun c =>
                  match c with
                  | Tag nm _ _ _ => located_strings (nm :: inside) c
                  | NavigableString s => [(inside, s)]
                  | Comment _ => []
                  end) cs
  | _ => []
  end.

(** Is one of the element names [inside] among [names]? *)
Definition any_named (names inside : list string) : bool :=
  existsb (fun nm => existsb (String.eqb nm) names) inside.

(** Does a text node lie inside an element named in [names]? *)
Definition inside_any (names : list string) (loc : list string * string) : bool :=
  any_named names (fst loc).

(** Does it lie outside all of them? *)
Definition outside (names : list string) (loc : list string * string) : bool :=
  negb (inside_any names loc).

(** The text nodes below [n] that lie inside no element named in [names],
    in document order. *)
Definition strings_outside (names : list string) (n : node) : list string :=
  map snd (filter (outside names) (located_strings [] n)).


Definition no_match (p : node -> bool) (n : node) : Prop :=
  forall x, In x (descendants n) -> p x = false.


(** [n] with nothing left inside it. *)
Definition emptied (n : node) : node :=
  match n with
  | Tag nm cl attrs _ => Tag nm cl attrs []
  | _ => n
  end.

(** The tree with every element below [n] that is named in [names]
    emptied: what the tree says outside those elements, and nothing of
    what it says inside them. *)
Fixpoint hollow (names : list string) (n : node) : node :=
  match n with
  | Tag nm cl attrs cs =>
      Tag nm cl attrs
          (map (fun c => if name_in names c then emptied c
                         else hollow names c) cs)
  | _ => n
  end.

(** Induction on a node with the hypothesis for every child. *)
Section NodeInduction.
Variable P : node -> Prop.
Hypothesis P_tag :
  forall nm cl attrs cs, Forall P cs -> P (Tag nm cl attrs cs).
Hypothesis P_string : forall s, P (NavigableString s).
Hypothesis P_comment : forall s, P (Comment s).

Fixpoint node_induction (n : node) : P n :=
  match n with
  | Tag nm cl attrs cs =>
      P_tag nm cl attrs cs
        ((fix children (l : list node) : Forall P l :=
            match l with
            | [] => Forall_nil P
            | c :: r => Forall_cons c (node_induction c) (children r)
            end) cs)
  | NavigableString s => P_string s
  | Comment s => P_comment s
  end.
End NodeInduction.

End Dom.

(** ** Effects: a trace of what the program did, and exceptions *)

Module Httpx.

Inductive method : Type := GET | POST.

Record request : Type := Request {
  verb : method;
  target : string;
  headers : list (string * string);
  data : list (string * string);
  sent_cookies : list (string * string);
  follow_redirects : bool;
  timeout : Z
}.

Record response : Type := Response {
  text : string;
  url : string;
  status_code : Z;
  cookies : list (string * string)
}.

End Httpx.

Module Eff.

(** A Python exception as the handlers see it: whether it is an instance
    of [httpx.RequestError] (the transport failures: DNS, TLS, connect,
    timeout, ...), and [str(e)]. *)
Record exn : Type := Exn { is_request_error : bool; str : string }.

(** What an observer of one handler call can see it do. *)
Inductive event : Type :=
| Sent (r : Httpx.request)          (* an outbound HTTP call *)
| Parsed (html : string)            (* BeautifulSoup(html, "html.parser") *)
| Inspected (result : Dom.node).    (* the loop body run on a result *)

(** A computation writes events and either returns or raises. *)
Definition M (A : Type) : Type := (list event * (exn + A))%type.

Definition ret {A} (a : A) : M A := ([], inr a).

Definition bind {A B} (m : M A) (k : A -> M B) : M B :=
  match m with
  | (t, inl e) => (t, inl e)
  | (t, inr a) => let (t', r) := k a in (t ++ t', r)
  end.

Definition tell (ev : event) : M unit := ([ev], inr tt).

(** An external call: the event, then what the collaborator answered. *)
Definition call {A} (ev : event) (answer : exn + A) : M A := ([ev], answer).

(** [try: return ok(m)  except Exception as e: h(e)] *)
Definition try_except {A B} (m : M A) (ok : A -> B) (h : exn -> B)
  : list event * B :=
  match m with
  | (t, inl e) => (t, h e)
  | (t, inr a) => (t, ok a)
  end.

(** The outbound calls and the parser calls recorded in a trace. *)
Definition requests (t : list event) : list Httpx.request :=
  flat_map (fun ev => match ev with Sent r => [r] | _ => [] end) t.

Definition parses (t : list event) : list string :=
  flat_map (fun ev => match ev with Parsed h => [h] | _ => [] end) t.

Definition trace {A} (m : list event * A) : list event := fst m.
Definition outcome {A} (m : list event * A) : A := snd m.

(** How a handler call ends, and the status the HTTP layer answers with:
    200 for a returned value, the exception's own status for an
    [HTTPException], 500 for any other exception that escapes. *)
Inductive ending (A : Type) : Type :=
| Returns (a : A)
| RaisesHTTP (status_code : Z) (detail : string)
| Escapes (e : exn).
Arguments Returns {A} a.
Arguments RaisesHTTP {A} status_code detail.
Arguments Escapes {A} e.

Definition http_status {A} (r : ending A) : Z :=
  match r with
  | Returns _ => 200
  | RaisesHTTP sc _ => sc
  | Escapes _ => 500
  end.

End Eff.

Declare Scope eff_scope.
Notation "x <- m ;; k" := (Eff.bind m (fun x => k))
  (at level 61, m at next level, right associativity) : eff_scope.
Notation "m ;;; k" := (Eff.bind m (fun _ => k))
  (at level 61, right associativity) : eff_scope.

(** ** The program *)

Module SearchResult.
Record t : Type := Make {
  title : string;
  url : option string;      (* [None] is Python's None, JSON null *)
  description : string
}.
End SearchResult.

Module PageContent.
Record t : Type := Make {
  url : string;
  title : string;
  content : string;
  status_code : Z
}.
End PageContent.

Module SearchResponse.
Inductive t : Type :=
| Ok (query : string) (results_count : Z) (results : list SearchResult.t)
| Failed (query : string) (error : string) (results : list SearchResult.t).
End SearchResponse.

Module Main.
Import Dom Eff.
Local Open Scope eff_scope.

Definition search_url : string := "https://html.duckduckgo.com/html/".

Definition headers : list (string * string) :=
  [("User-Agent",
    "Mozilla/5.0 (Windows NT 10.0; Win64; x64) AppleWebKit/537.36 (KHTML, like Gecko) Chrome/91.0.4472.124 Safari/537.36")].

(** *** The result loop of [search_duckduckgo] *)

Definition title_elem (result : node) : option node := select_one "result__a" result.
Definition url_elem (result : node) : option node := select_one "result__a" result.
Definition snippet_elem (result : node) : option node :=
  select_one "result__snippet" result.

(** The body of [for result in soup.select(".result")], on the results
    still to come; [results] is the list built so far. *)
Fixpoint for_result (todo : list node) (results : list SearchResult.t)
         (max_results : Z) : M (list SearchResult.t) :=
  match todo with
  | [] => ret results
  | result :: rest =>
      tell (Inspected result) ;;;
      let results :=
        match title_elem result, url_elem result with
        | Some title_elem, Some url_elem =>
            results ++
            [ {| SearchResult.title := get_text EmptyString title_elem;
                 SearchResult.url := get "href" url_elem;
                 SearchResult.description :=
                   match snippet_elem result with
                   | Some snippet_elem => get_text EmptyString snippet_elem
                   | None => EmptyString
                   end |} ]
        | _, _ => results
        end in
      if (Z.of_nat (List.length results) >=? max_results)%Z
      then ret results
      else for_result rest results max_results
  end.

(** A result is valid when it has a title element and a link element. *)
Definition is_valid (result : node) : bool :=
  match title_elem result, url_elem result with
  | Some _, Some _ => true
  | _, _ => false
  end.

(** The record of a result whose link element is [a]. *)
Definition record (result a : node) : SearchResult.t :=
  {| SearchResult.title := get_text EmptyString a;
     SearchResult.url := get "href" a;
     SearchResult.description :=
       match snippet_elem result with
       | Some snippet_elem => get_text EmptyString snippet_elem
       | None => EmptyString
       end |}.

(** What a result adds to the output: its record, or nothing. *)
Definition entry (result : node) : list SearchResult.t :=
  match select_one "result__a" result with
  | Some a => [record result a]
  | None => []
  end.

Definition entries (results : list node) : list SearchResult.t :=
  flat_map entry results.

(** Lines 40-57: from the parsed page to the returned list. *)
Definition parse_results (soup : node) (max_results : Z)
  : M (list SearchResult.t) :=
  for_result (select "result" soup) [] max_results.

(** *** The extraction of [read_url] *)

Definition page_title (soup : node) : string :=
  match find (name_is "title") soup with
  | Some title_elem => get_text EmptyString title_elem
  | None => EmptyString
  end.

Definition removed_tags : list string :=
  ["script"; "style"; "nav"; "header"; "footer"; "aside"].

Definition class_words : list string := ["content"; "article"; "post"; "main"].

(** [a or b] on values that are an element (always true) or None. *)
Definition or_else (a b : option node) : option node :=
  match a with
  | Some _ => a
  | None => b
  end.

(** Line 86, on the tree the removal has left. *)
Definition main_content (soup : node) : option node :=
  or_else (find (name_is "main") soup)
  (or_else (find (name_is "article") soup)
  (or_else (find (fun n => name_is "div" n && class_matches class_words n) soup)
           (find (name_is "body") soup))).

(** Lines 88-91. *)
Definition raw_text (soup : node) : string :=
  match main_content soup with
  | Some main_content => get_text Text.nl main_content
  | None => get_text Text.nl soup
  end.

(** Lines 83-93: from the parsed page to the content string. *)
Definition page_text (soup : node) : string :=
  let soup := decompose_all removed_tags soup in
  Text.re_sub_newlines (raw_text soup).

(** The requests [client.get(url, headers=headers, ...)] and
    [client.post(url, headers=headers, data=..., cookies=...)] send, on a
    client built with [timeout=30.0]. *)
Definition get_request (url : string) (follow_redirects : bool)
  : Httpx.request :=
  Httpx.Request Httpx.GET url headers [] [] follow_redirects 30.

Definition post_request (url : string) (data cookies : list (string * string))
  : Httpx.request :=
  Httpx.Request Httpx.POST url headers data cookies false 30.

Section Program.

(** The HTTP client ([httpx.AsyncClient]) and the parser
    ([BeautifulSoup(_, "html.parser")]): each answers or raises. *)
Variable send : Httpx.request -> exn + Httpx.response.
Variable BeautifulSoup : string -> exn + node.

Definition client_get (url : string) (follow_redirects : bool)
  : M Httpx.response :=
  call (Sent (get_request url follow_redirects))
       (send (get_request url follow_redirects)).

Definition client_post (url : string) (data cookies : list (string * string))
  : M Httpx.response :=
  call (Sent (post_request url data cookies))
       (send (post_request url data cookies)).

Definition search_duckduckgo (query : string) (max_results : Z)
  : M (list SearchResult.t) :=
  response <- client_get search_url false ;;
  let cookies := Httpx.cookies response in
  let form_data := [("q", query); ("kl", EmptyString)] in
  response <- client_post search_url form_data cookies ;;
  soup <- call (Parsed (Httpx.text response)) (BeautifulSoup (Httpx.text response)) ;;
  parse_results soup max_results.

Definition read_url (url : string) : list event * ending PageContent.t :=
  try_except
    (response <- client_get url true ;;
     soup <- call (Parsed (Httpx.text response)) (BeautifulSoup (Httpx.text response)) ;;
     let title := page_title soup in
     let text := page_text soup in
     ret {| PageContent.url := Httpx.url response;
            PageContent.title := title;
            PageContent.content := text;
            PageContent.status_code := Httpx.status_code response |})
    (fun page => Returns page)
    (fun e =>
       if is_request_error e
       then RaisesHTTP 400 ("Error fetching URL: " ++ str e)
       else RaisesHTTP 500 ("Error parsing content: " ++ str e)).

(** The [/search] handler. *)
Definition search (q : string) (limit : Z)
  : list event * ending SearchResponse.t :=
  try_except
    (search_duckduckgo q limit)
    (fun results =>
       Returns (SearchResponse.Ok q (Z.of_nat (List.length results)) results))
    (fun e => Returns (SearchResponse.Failed q (str e) [])).

(** The [/read] handler. *)
Definition read (url : string) : list event * ending PageContent.t :=
  read_url url.

End Program.

(** *** What the routes let through

    The declarations [Query(..., min_length=1)] and
    [Query(10, ge=1, le=50)]: a parameter is absent ([None]) or given;
    [None] as a result says that the request is refused before the
    handler runs. *)
Definition search_params (q : option string) (limit : option Z)
  : option (string * Z) :=
  match q with
  | None => None
  | Some q =>
      if (1 <=? String.length q)%nat
      then match limit with
           | None => Some (q, 10%Z)
           | Some limit =>
               if ((1 <=? limit) && (limit <=? 50))%Z
               then Some (q, limit) else None
           end
      else None
  end.

Definition read_params (url : option string) : option string :=
  match url with
  | None => None
  | Some url => if (1 <=? String.length url)%nat then Some url else None
  end.

(** [GET /search] and [GET /read] with their parameters as sent. *)
Definition search_route (send : Httpx.request -> exn + Httpx.response)
           (BeautifulSoup : string -> exn + node)
           (q : option string) (limit : option Z)
  : option (list event * ending SearchResponse.t) :=
  match search_params q limit with
  | Some (q, limit) => Some (search send BeautifulSoup q limit)
  | None => None
  end.

Definition read_route (send : Httpx.request -> exn + Httpx.response)
           (BeautifulSoup : string -> exn + node) (url : option string)
  : option (list event * ending PageContent.t) :=
  match read_params url with
  | Some url => Some (read send BeautifulSoup url)
  | None => None
  end.

End Main.

(** ** Sample pages and collaborators *)

Module Example.
Import Dom Eff.

Definition document (cs : list node) : node := Tag "[document]" None [] cs.

Definition story_section : node :=
  Tag "section" (Some ["content"]) [] [NavigableString "Story"].

(** [<html><body><p>Intro</p><section class="content">Story</section></body></html>] *)
Definition section_page : node :=
  document
    [Tag "html" None []
       [Tag "body" None []
          [Tag "p" None [] [NavigableString "Intro"]; story_section]]].

Definition main_elem : node :=
  Tag "main" None []
      [Tag "nav" None [] [NavigableString "Menu"];
       Tag "p" None [] [NavigableString "Body text"];
       Tag "script" None [] [NavigableString "var x;"]].

(** [main_article_page] with other words in the nav, another script, and
    a footer added under the main element. *)
Definition main_article_page_reskinned : node :=
  document
    [Tag "html" None []
       [Tag "head" None [] [Tag "title" None [] [NavigableString " Home "]];
        Tag "body" None []
          [Tag "article" None [] [NavigableString "Teaser"];
           Tag "main" None []
             [Tag "nav" None []
                [Tag "a" None [("href", "/")] [NavigableString "Start"];
                 NavigableString "Other menu"];
              Tag "p" None [] [NavigableString "Body text"];
              Tag "script" None [] [NavigableString "let y = 2;"]]]]].

(** [main_elem] once the nav and the script are taken out. *)
Definition main_elem_cleaned : node :=
  Tag "main" None [] [Tag "p" None [] [NavigableString "Body text"]].

(** An article, then a main element with a nav and a script in it. *)
Definition main_article_page : node :=
  document
    [Tag "html" None []
       [Tag "head" None [] [Tag "title" None [] [NavigableString " Home "]];
        Tag "body" None []
          [Tag "article" None [] [NavigableString "Teaser"]; main_elem]]].

(** One text node holding ["A\n\n\nB"]. *)
Definition blank_lines_page : node :=
  document
    [Tag "body" None []
       [NavigableString ("A" ++ Text.newlines 3 ++ "B")]].

Definition link (href : option string) (label : string) : node :=
  Tag "a" (Some ["result__a"])
      (match href with Some h => [("href", h)] | None => [] end)
      [NavigableString label].

Definition snippet (s : string) : node :=
  Tag "a" (Some ["result__snippet"]) [] [NavigableString s].

Definition result_div (cs : list node) : node :=
  Tag "div" (Some ["result"; "results_links"]) [] cs.

Definition result_1 : node :=
  result_div [link (Some "https://a.example/") "Alpha"; snippet "first"].
Definition result_no_link : node :=
  result_div [Tag "span" None [] [NavigableString "advert"]].
Definition result_2 : node :=
  result_div [link (Some "https://b.example/") "Beta"].
Definition result_no_href : node :=
  result_div [link None "Gamma"; snippet "third"].

Definition results_page : node :=
  document
    [Tag "div" (Some ["results"]) []
       [result_1; result_no_link; result_2; result_no_href]].

Definition page_response (status : Z) : Httpx.response :=
  {| Httpx.text := "<html>";
     Httpx.url := "https://example.org/final";
     Httpx.status_code := status;
     Httpx.cookies := [] |}.

(** A client that answers every request with status [status]. *)
Definition send_status (status : Z) (_ : Httpx.request)
  : exn + Httpx.response := inr (page_response status).

(** A client whose calls time out; the exception has an empty message. *)
Definition send_timeout (_ : Httpx.request) : exn + Httpx.response :=
  inl (Exn true EmptyString).

(** A client that cannot resolve the host. *)
Definition send_dns (_ : Httpx.request) : exn + Httpx.response :=
  inl (Exn true "[Errno -2] Name or service not known").

Definition parse_to (page : node) (_ : string) : exn + node := inr page.

(** A client that refuses the URL itself: not a transport error. *)
Definition send_invalid_url (_ : Httpx.request) : exn + Httpx.response :=
  inl (Exn false "Invalid port: 'x'").

Definition answer (target : string) : Httpx.response :=
  {| Httpx.text := "<html>";
     Httpx.url := target;
     Httpx.status_code := 200;
     Httpx.cookies := [("kl", "wt-wt")] |}.

(** A client that answers the first call and fails on the form post. *)
Definition send_get_only (r : Httpx.request) : exn + Httpx.response :=
  match Httpx.verb r with
  | Httpx.GET => inr (answer (Httpx.target r))
  | Httpx.POST => inl (Exn true "Server disconnected")
  end.

(** A client that answers both calls. *)
Definition send_both (r : Httpx.request) : exn + Httpx.response :=
  inr (answer (Httpx.target r)).

(** A body with nothing to show: only a script and blank text. *)
Definition script_only_page : node :=
  document
    [Tag "body" None []
       [Tag "script" None [] [NavigableString "track();"];
        NavigableString "   ";
        Comment "generated"]].

Definition parse_fails (_ : string) : exn + node :=
  inl (Exn false "maximum recursion depth exceeded").

End Example.

(** * Facts *)

(** ** Text *)

Module TextFacts.
Import Text.
Local Open Scope string_scope.

Lemma sub_newlines_in_match_head (s : string) :
  starts_with_newline (sub_newlines true s) = false.
Proof.
  induction s as [|c r IH]; simpl; [reflexivity|].
  destruct (is_newline c) eqn:E; simpl; [exact IH | exact E].
Qed.

Lemma sub_newlines_no_blank_line (s : string) :
  forall m, no_blank_line (sub_newlines m s).
Proof.
  induction s as [|c r IH]; intros m; simpl; [exact I|].
  destruct (is_newline c) eqn:E.
  - destruct m; [apply IH|].
    simpl. split; [|apply IH].
    pose proof (sub_newlines_in_match_head r) as H.
    destruct (sub_newlines true r) as [|d r']; [exact I|].
    simpl in H. intros [_ Hd]. congruence.
  - simpl. split; [|apply IH].
    destruct (sub_newlines false r); [exact I|].
    intros [Hc _]. congruence.
Qed.

Lemma sub_newlines_skips_run (k : nat) (b : string) :
  sub_newlines true (newlines k ++ b) = sub_newlines true b.
Proof.
  induction k as [|k IH]; simpl; [reflexivity | exact IH].
Qed.

Lemma sub_newlines_run_head (k : nat) (b : string) :
  sub_newlines false (newlines (S k) ++ b) = String newline (sub_newlines true b).
Proof.
  change (sub_newlines false (newlines (S k) ++ b))
    with (String newline (sub_newlines true (newlines k ++ b))).
  now rewrite sub_newlines_skips_run.
Qed.

Lemma sub_newlines_fresh_start (b : string) :
  starts_with_newline b = false ->
  sub_newlines true b = sub_newlines false b.
Proof.
  destruct b as [|c r]; simpl; [reflexivity|].
  intros ->. reflexivity.
Qed.

Lemma sub_newlines_run_after (a : string) :
  forall c m k b,
    ends_with_newline (String c a) = false ->
    starts_with_newline b = false ->
    sub_newlines m (String c a ++ newlines (S k) ++ b)
    = (sub_newlines m (String c a) ++ nl ++ sub_newlines false b)%string.
Proof.
  induction a as [|d a IH]; intros c m k b Ha Hb.
  - simpl in Ha. cbn [append sub_newlines]. rewrite Ha.
    rewrite sub_newlines_run_head, (sub_newlines_fresh_start b Hb).
    reflexivity.
  - assert (Hd : ends_with_newline (String d a) = false) by exact Ha.
    change (String c (String d a) ++ newlines (S k) ++ b)
      with (String c (String d a ++ newlines (S k) ++ b)).
    cbn [sub_newlines].
    destruct (is_newline c); [destruct m|];
      rewrite (IH d _ k b Hd Hb); reflexivity.
Qed.

Lemma re_sub_newlines_run (a b : string) (k : nat) :
  ends_with_newline a = false ->
  starts_with_newline b = false ->
  re_sub_newlines (a ++ newlines (S k) ++ b)
  = (re_sub_newlines a ++ nl ++ re_sub_newlines b)%string.
Proof.
  intros Ha Hb. unfold re_sub_newlines.
  destruct a as [|c a].
  - change (EmptyString ++ newlines (S k) ++ b)%string with (newlines (S k) ++ b)%string.
    rewrite sub_newlines_run_head, (sub_newlines_fresh_start b Hb).
    reflexivity.
  - apply sub_newlines_run_after; assumption.
Qed.

Lemma sub_newlines_keeps_others (s : string) :
  forall m, remove_newlines (sub_newlines m s) = remove_newlines s.
Proof.
  induction s as [|c r IH]; intros m; simpl; [reflexivity|].
  destruct (is_newline c) eqn:E.
  - destruct m; simpl; apply IH.
  - simpl. rewrite E, IH. reflexivity.
Qed.

Example strip_both_ends :
  strip (" a b " ++ nl) = "a b" /\ strip ("  " ++ nl) = EmptyString.
Proof. split; reflexivity. Qed.

Example contains_is_case_sensitive :
  contains "post" "blog-post-body" = true
  /\ contains "Post" "blog-post-body" = false.
Proof. split; reflexivity. Qed.

Example runs_collapse :
  re_sub_newlines (nl ++ nl ++ "a" ++ nl ++ "b" ++ newlines 4)
  = nl ++ "a" ++ nl ++ "b" ++ nl.
Proof. reflexivity. Qed.

End TextFacts.

(** ** The document tree *)

Module DomFacts.
Import Dom.

Lemma flat_map_flat_map {A B C} (f : B -> list C) (g : A -> list B) (l : list A) :
  flat_map f (flat_map g l) = flat_map (fun a => flat_map f (g a)) l.
Proof.
  induction l as [|a l IH]; simpl; [reflexivity|].
  now rewrite flat_map_app, IH.
Qed.

Lemma all_strings_tag nm cl attrs cs :
  all_strings (Tag nm cl attrs cs)
  = flat_map (fun c => string_of c ++ all_strings c) cs.
Proof.
  unfold all_strings. simpl. now rewrite flat_map_flat_map.
Qed.

(** A descendant's own descendants sit in one block inside the
    descendants of the node. *)
Lemma descendants_block (n : node) :
  forall c, In c (descendants n) ->
  exists pre post, descendants n = pre ++ (c :: descendants c) ++ post.
Proof.
  induction n as [nm cl attrs cs IH| |] using node_induction;
    intros c Hc; simpl in Hc; try contradiction.
  apply in_flat_map in Hc. destruct Hc as (child & Hchild & Hin).
  destruct (in_split _ _ Hchild) as (l1 & l2 & ->).
  simpl. rewrite flat_map_app. simpl.
  set (F := flat_map (fun c0 => c0 :: descendants c0)).
  destruct Hin as [<- | Hin].
  - exists (F l1), (F l2). reflexivity.
  - rewrite Forall_forall in IH.
    destruct (IH child Hchild c Hin) as (pre & post & E).
    exists (F l1 ++ child :: pre), (post ++ F l2).
    rewrite E. simpl. repeat (rewrite <- app_assoc; simpl). reflexivity.
Qed.

Lemma all_strings_block (n c : node) :
  In c (descendants n) ->
  exists pre post, all_strings n = pre ++ all_strings c ++ post.
Proof.
  intros Hc. destruct (descendants_block n c Hc) as (pre & post & E).
  unfold all_strings. rewrite E, !flat_map_app. simpl.
  exists (flat_map string_of pre ++ string_of c), (flat_map string_of post).
  now rewrite <- !app_assoc.
Qed.


Lemma find_none_all {A} (p : A -> bool) (l : list A) :
  List.find p l = None <-> (forall y, In y l -> p y = false).
Proof.
  split.
  - intros H y Hy. exact (find_none p l H y Hy).
  - induction l as [|a l IH]; simpl; [reflexivity|].
    intros H. rewrite (H a (or_introl eq_refl)). apply IH.
    intros y Hy. apply H. now right.
Qed.

Section Removal.
Variable names : list string.

Lemma located_inside_removed (n : node) :
  forall inside, any_named names inside = true ->
  filter (outside names) (located_strings inside n) = [].
Proof.
  induction n as [nm cl attrs cs IH| |] using node_induction;
    intros inside Hb; simpl; try reflexivity.
  induction IH as [|c cs Hc _ IHcs]; simpl; [reflexivity|].
  rewrite filter_app, IHcs, app_nil_r.
  destruct c as [nm' cl' attrs' cs'|s|s]; try reflexivity.
  - apply (Hc (nm' :: inside)). unfold any_named in *. simpl. rewrite Hb.
    apply orb_true_r.
  - simpl. unfold outside, inside_any. simpl. now rewrite Hb.
Qed.

Lemma all_strings_decompose (n : node) :
  forall inside, any_named names inside = false ->
  all_strings (decompose_all names n)
  = map snd (filter (outside names) (located_strings inside n)).
Proof.
  induction n as [nm cl attrs cs IH| |] using node_induction;
    intros inside Hb; try reflexivity.
  simpl decompose_all. rewrite all_strings_tag. simpl located_strings.
  induction IH as [|c cs Hc _ IHcs]; simpl; [reflexivity|].
  rewrite flat_map_app, filter_app, map_app, IHcs. f_equal.
  destruct c as [nm' cl' attrs' cs'|s|s]; cbn [name_in].
  - destruct (existsb (String.eqb nm') names) eqn:E;
      cbn [flat_map app string_of].
    + rewrite located_inside_removed; [reflexivity|].
      unfold any_named. simpl. now rewrite E.
    + rewrite app_nil_r. apply (Hc (nm' :: inside)).
      unfold any_named in *. simpl. now rewrite E, Hb.
  - simpl. unfold outside, inside_any. simpl. now rewrite Hb.
  - reflexivity.
Qed.

Lemma all_strings_decompose_outside (n : node) :
  all_strings (decompose_all names n) = strings_outside names n.
Proof. apply all_strings_decompose. reflexivity. Qed.
End Removal.

End DomFacts.

(** ** The result loop *)

Module LoopFacts.
Import Dom Eff Main.

Lemma entries_app (l1 l2 : list node) :
  entries (l1 ++ l2) = entries l1 ++ entries l2.
Proof. apply flat_map_app. Qed.

Lemma entry_length (r : node) :
  List.length (entry r) = if is_valid r then 1%nat else 0%nat.
Proof.
  unfold entry, is_valid, title_elem, url_elem.
  destruct (select_one "result__a" r); reflexivity.
Qed.

Lemma entry_invalid (r : node) : is_valid r = false -> entry r = [].
Proof.
  unfold entry, is_valid, title_elem, url_elem.
  destruct (select_one "result__a" r); [discriminate | reflexivity].
Qed.

Lemma entries_length (l : list node) :
  List.length (entries l) = List.length (filter is_valid l).
Proof.
  induction l as [|r l IH]; simpl; [reflexivity|].
  rewrite length_app, entry_length, IH.
  destruct (is_valid r); reflexivity.
Qed.

Lemma entries_filter (l : list node) : entries (filter is_valid l) = entries l.
Proof.
  induction l as [|r l IH]; simpl; [reflexivity|].
  destruct (is_valid r) eqn:E; simpl; rewrite IH; [reflexivity|].
  now rewrite (entry_invalid r E).
Qed.

Lemma for_result_cons (r : node) (rest : list node)
      (acc : list SearchResult.t) (N : Z) :
  for_result (r :: rest) acc N
  = if (Z.of_nat (List.length (acc ++ entry r)) >=? N)%Z
    then ([Inspected r], inr (acc ++ entry r))
    else (Inspected r :: trace (for_result rest (acc ++ entry r) N),
          outcome (for_result rest (acc ++ entry r) N)).
Proof.
  cbn [for_result]. unfold title_elem, url_elem, entry, record, snippet_elem.
  destruct (select_one "result__a" r) as [a|]; cbn [bind tell ret app];
    rewrite ?app_nil_r.
  - destruct (Z.of_nat _ >=? N)%Z; [reflexivity|].
    destruct (for_result rest _ N) as [t o]; reflexivity.
  - destruct (Z.of_nat _ >=? N)%Z; [reflexivity|].
    destruct (for_result rest _ N) as [t o]; reflexivity.
Qed.

(** The loop never raises. *)
Lemma for_result_returns (todo : list node) :
  forall acc N, exists results, outcome (for_result todo acc N) = inr results.
Proof.
  induction todo as [|r rest IH]; intros acc N.
  - exists acc. reflexivity.
  - rewrite for_result_cons.
    destruct (Z.of_nat _ >=? N)%Z; [eexists; reflexivity|].
    apply IH.
Qed.

(** With room left in the list ([len(results) < max_results]), the loop
    visits a prefix of the results, returns what the visited results
    add, and either ran through all of them without filling the list or
    stopped on the valid result that filled it. *)
Lemma for_result_run (todo : list node) :
  forall acc N,
    (Z.of_nat (List.length acc) < N)%Z ->
    exists visited rest,
      todo = visited ++ rest
      /\ for_result todo acc N
         = (map Inspected visited, inr (acc ++ entries visited))
      /\ ((rest = []
           /\ (Z.of_nat (List.length (acc ++ entries visited)) < N)%Z)
          \/ (Z.of_nat (List.length (acc ++ entries visited)) = N
              /\ exists pre c, visited = pre ++ [c] /\ is_valid c = true)).
Proof.
  induction todo as [|r todo IH]; intros acc N Hacc.
  - exists [], []. simpl. rewrite app_nil_r. repeat split. now left.
  - rewrite for_result_cons.
    pose proof (entry_length r) as Hlen.
    rewrite Z.geb_leb.
    destruct (Z.leb_spec N (Z.of_nat (List.length (acc ++ entry r)))) as [E|E].
    + exists [r], todo. simpl. rewrite app_nil_r. repeat split.
      right. rewrite length_app in *.
      destruct (is_valid r) eqn:V; [|lia].
      split; [lia|]. exists [], r. split; [reflexivity | exact V].
    + assert (Hacc' : (Z.of_nat (List.length (acc ++ entry r)) < N)%Z) by lia.
      destruct (IH (acc ++ entry r) N Hacc')
        as (visited & rest & -> & Hrun & Hend).
      exists (r :: visited), rest. rewrite Hrun. simpl.
      rewrite <- app_assoc in *. repeat split.
      destruct Hend as [Hend | (Hn & pre & c & -> & Hc)]; [now left|].
      right. split; [exact Hn|]. exists (r :: pre), c. now split.
Qed.

End LoopFacts.

(** ** The search result parser *)

Import Dom Eff Main.

Lemma firstn_length_app {A} (a b : list A) :
  firstn (List.length a) (a ++ b) = a.
Proof.
  rewrite firstn_app, Nat.sub_diag, firstn_all. simpl. apply app_nil_r.
Qed.

Lemma for_result_firstn (todo : list node) (N : Z) :
  (1 <= N)%Z ->
  outcome (for_result todo [] N) = inr (firstn (Z.to_nat N) (entries todo)).
Proof.
  intros HN.
  destruct (LoopFacts.for_result_run todo [] N ltac:(simpl; lia))
    as (visited & rest & -> & -> & Hend).
  simpl in *. f_equal. rewrite LoopFacts.entries_app.
  destruct Hend as [[-> Hlt] | [Hn _]].
  - simpl. rewrite app_nil_r. symmetry. apply firstn_all2. lia.
  - replace (Z.to_nat N) with (List.length (entries visited)) by lia.
    symmetry. apply firstn_length_app.
Qed.

(** C4.  With a limit N >= 1 and a page that has at least N valid results,
    the parser returns exactly N records, those of the first N valid
    results in document order; and the loop stops on the N-th valid
    result: the results it ran its body on are a prefix [visited] of the
    selected results that ends with a valid one, and the results after it
    ([rest]) are never handed to the loop body. *)
Theorem parse_results_stops_at_limit (soup : node) (N : Z) :
  (1 <= N)%Z ->
  (N <= Z.of_nat (List.length (filter is_valid (select "result" soup))))%Z ->
  exists visited rest,
    select "result" soup = visited ++ rest
    /\ trace (parse_results soup N) = map Inspected visited
    /\ outcome (parse_results soup N) = inr (entries visited)
    /\ entries visited
       = firstn (Z.to_nat N) (entries (filter is_valid (select "result" soup)))
    /\ List.length (entries visited) = Z.to_nat N
    /\ (exists pre c, visited = pre ++ [c] /\ is_valid c = true).
Proof.
  intros HN Hmany. unfold parse_results.
  destruct (LoopFacts.for_result_run (select "result" soup) [] N
              ltac:(simpl; lia))
    as (visited & rest & Hsplit & Hrun & Hend).
  exists visited, rest. rewrite Hrun. simpl in *.
  rewrite <- LoopFacts.entries_length in Hmany.
  rewrite LoopFacts.entries_filter, Hsplit in *.
  rewrite LoopFacts.entries_app in *.
  destruct Hend as [[-> Hlt] | [Hn Hlast]].
  - simpl in Hmany. rewrite app_nil_r in Hmany. lia.
  - repeat split; auto; try lia.
    replace (Z.to_nat N) with (List.length (entries visited)) by lia.
    symmetry. apply firstn_length_app.
Qed.

Lemma parse_results_stops_at_limit_witness :
  exists visited rest,
    select "result" Example.results_page = visited ++ rest
    /\ trace (parse_results Example.results_page 2) = map Inspected visited
    /\ outcome (parse_results Example.results_page 2) = inr (entries visited)
    /\ entries visited
       = firstn (Z.to_nat 2)
           (entries (filter is_valid (select "result" Example.results_page)))
    /\ List.length (entries visited) = Z.to_nat 2
    /\ (exists pre c, visited = pre ++ [c] /\ is_valid c = true).
Proof.
  apply (parse_results_stops_at_limit Example.results_page 2).
  - lia.
  - vm_compute. discriminate.
Defined.



Lemma in_firstn {A} (n : nat) (l : list A) (x : A) :
  In x (firstn n l) -> In x l.
Proof.
  intros H. rewrite <- (firstn_skipn n l). apply in_or_app. now left.
Qed.

Lemma in_entries (l : list node) (r : SearchResult.t) :
  In r (entries l) ->
  exists c a, In c l /\ select_one "result__a" c = Some a /\ r = record c a.
Proof.
  unfold entries. rewrite in_flat_map. intros (c & Hc & Hr).
  unfold entry in Hr. destruct (select_one "result__a" c) as [a|] eqn:E.
  - destruct Hr as [<- | []]. now exists c, a.
  - destruct Hr.
Qed.

(** C6.  With a limit N >= 1: the output is made of the first N records of
    the valid results only; a result with neither a title element nor a
    link element adds no record, and taking it out of the page changes
    nothing in the output, so it does not count toward N; and the
    description of each record is the text of the snippet element of its
    result, or the empty string when the result has none. *)
Theorem invalid_results_skipped (soup : node) (N : Z) :
  (1 <= N)%Z ->
  outcome (parse_results soup N)
  = inr (firstn (Z.to_nat N) (entries (filter is_valid (select "result" soup))))
  /\ (forall c, title_elem c = None -> url_elem c = None ->
        is_valid c = false /\ entry c = []
        /\ forall pre post,
             outcome (for_result (pre ++ c :: post) [] N)
             = outcome (for_result (pre ++ post) [] N))
  /\ (forall r,
        In r (firstn (Z.to_nat N)
                (entries (filter is_valid (select "result" soup)))) ->
        exists c a,
          In c (select "result" soup)
          /\ title_elem c = Some a /\ url_elem c = Some a
          /\ r = record c a
          /\ SearchResult.description r
             = match select_one "result__snippet" c with
               | Some snippet_elem => get_text EmptyString snippet_elem
               | None => EmptyString
               end).
Proof.
  intros HN. split; [|split].
  - unfold parse_results. rewrite LoopFacts.entries_filter.
    now apply for_result_firstn.
  - intros c Ht Hu.
    assert (V : is_valid c = false) by (unfold is_valid; now rewrite Ht).
    split; [exact V|]. split; [now apply LoopFacts.entry_invalid|].
    intros pre post. rewrite !for_result_firstn by exact HN.
    rewrite !LoopFacts.entries_app. simpl.
    now rewrite (LoopFacts.entry_invalid c V).
  - intros r Hr. apply in_firstn in Hr.
    rewrite LoopFacts.entries_filter in Hr.
    destruct (in_entries _ _ Hr) as (c & a & Hc & Ha & ->).
    exists c, a. repeat split; auto.
Qed.

Lemma invalid_results_skipped_witness :
  outcome (parse_results Example.results_page 2)
  = inr [record Example.result_1 (Example.link (Some "https://a.example/") "Alpha");
         record Example.result_2 (Example.link (Some "https://b.example/") "Beta")].
Proof.
  rewrite (proj1 (invalid_results_skipped Example.results_page 2 ltac:(lia))).
  reflexivity.
Defined.

(** C10.  The title element and the url element of a result are the same
    node, so a result has the one exactly when it has the other; and a
    result whose link element carries no href attribute is still emitted,
    with the url field None (JSON null) and the title taken from that
    same element. *)
Theorem title_and_url_same_node (result : node) :
  title_elem result = url_elem result
  /\ ((exists t, title_elem result = Some t)
      <-> (exists u, url_elem result = Some u))
  /\ (forall a rest N,
        (1 <= N)%Z ->
        url_elem result = Some a ->
        get "href" a = None ->
        exists r,
          outcome (for_result (result :: rest) [] N)
          = inr (r :: firstn (Z.to_nat N - 1) (entries rest))
          /\ SearchResult.url r = None
          /\ SearchResult.title r = get_text EmptyString a).
Proof.
  split; [reflexivity|]. split; [reflexivity|].
  intros a rest N HN Ha Hhref.
  exists (record result a). rewrite for_result_firstn by exact HN.
  unfold url_elem in Ha. simpl. unfold entry at 1. rewrite Ha.
  destruct (Z.to_nat N) as [|n] eqn:E; [lia|].
  simpl. rewrite Nat.sub_0_r. repeat split. exact Hhref.
Qed.

Lemma title_and_url_same_node_witness :
  exists r,
    outcome (for_result [Example.result_no_href; Example.result_1] [] 5)
    = inr (r :: firstn (Z.to_nat 5 - 1) (entries [Example.result_1]))
    /\ SearchResult.url r = None
    /\ SearchResult.title r = get_text EmptyString (Example.link None "Gamma").
Proof.
  apply (proj2 (proj2 (title_and_url_same_node Example.result_no_href))
           (Example.link None "Gamma") [Example.result_1] 5%Z).
  - lia.
  - reflexivity.
  - reflexivity.
Defined.

(** ** The content extractor *)

Lemma main_content_below (soup c : node) :
  main_content soup = Some c -> In c (descendants soup).
Proof.
  unfold main_content, or_else, find.
  repeat match goal with
         | |- context [List.find ?p ?l] =>
             let E := fresh "E" in
             destruct (List.find p l) eqn:E;
             [ intros [= <-]; exact (proj1 (find_some _ _ E)) | ]
         end.
  discriminate.
Qed.

Lemma name_in_emptied (names : list string) (n : node) :
  name_in names (emptied n) = name_in names n.
Proof. destruct n; reflexivity. Qed.

Lemma name_in_hollow (names : list string) (n : node) :
  name_in names (hollow names n) = name_in names n.
Proof. destruct n; reflexivity. Qed.

(** The removal step does not see what the removed elements hold. *)
Lemma decompose_hollow (names : list string) (n : node) :
  decompose_all names (hollow names n) = decompose_all names n.
Proof.
  induction n as [nm cl attrs cs IH| |] using node_induction;
    try reflexivity.
  simpl. f_equal.
  induction IH as [|c cs Hc _ IHcs]; [reflexivity|].
  simpl. rewrite IHcs. f_equal.
  destruct (name_in names c) eqn:E.
  - now rewrite name_in_emptied, E.
  - now rewrite name_in_hollow, E, Hc.
Qed.

(** C7.  The content string is built from text nodes that lie outside
    every script, style, nav, header, footer and aside element, wherever
    those elements are (also inside the chosen container): the strings
    that go into it ([kept]) are one run of the document's text nodes
    that have no such element above them.  And what those elements hold
    has no bearing on it: two pages that are the same once each of these
    elements is emptied have the same content string. *)
Theorem removed_text_never_in_content (soup : node) :
  (exists before kept after,
     strings_outside ["script"; "style"; "nav"; "header"; "footer"; "aside"]
                     soup
     = before ++ kept ++ after
     /\ page_text soup
        = Text.re_sub_newlines (Text.join Text.nl (stripped kept)))
  /\ (forall soup',
        hollow ["script"; "style"; "nav"; "header"; "footer"; "aside"] soup'
        = hollow ["script"; "style"; "nav"; "header"; "footer"; "aside"] soup ->
        page_text soup' = page_text soup).
Proof.
  split.
  - unfold page_text, raw_text.
    rewrite <- DomFacts.all_strings_decompose_outside.
    change ["script"; "style"; "nav"; "header"; "footer"; "aside"]
      with removed_tags.
    destruct (main_content (decompose_all removed_tags soup)) as [c|] eqn:E.
    + apply main_content_below in E.
      destruct (DomFacts.all_strings_block _ c E) as (pre & post & Hblock).
      exists pre, (all_strings c), post. split; [exact Hblock | reflexivity].
    + exists [], (all_strings (decompose_all removed_tags soup)), [].
      simpl. rewrite app_nil_r. split; reflexivity.
  - intros soup' H.
    change ["script"; "style"; "nav"; "header"; "footer"; "aside"]
      with removed_tags in H.
    unfold page_text.
    rewrite <- (decompose_hollow removed_tags soup'), H, decompose_hollow.
    reflexivity.
Qed.

Lemma removed_text_never_in_content_witness :
  page_text Example.main_article_page_reskinned
  = page_text Example.main_article_page
  /\ page_text Example.main_article_page = "Body text".
Proof.
  split; [|reflexivity].
  apply (proj2 (removed_text_never_in_content Example.main_article_page)
           Example.main_article_page_reskinned).
  reflexivity.
Defined.

(** C8.  The content string is the serialized text with every run of
    newlines replaced by one newline: it has no two newlines in a row, a
    run of any length between two pieces of text becomes a single newline,
    the other characters are kept as they are, and the serialized text
    "A\n\n\nB" gives "A\nB". *)
Theorem content_has_no_blank_lines (soup : node) :
  let raw := raw_text (decompose_all removed_tags soup) in
  page_text soup = Text.re_sub_newlines raw
  /\ Text.no_blank_line (page_text soup)
  /\ (forall a b k,
        Text.ends_with_newline a = false ->
        Text.starts_with_newline b = false ->
        raw = (a ++ Text.newlines (S k) ++ b)%string ->
        page_text soup
        = (Text.re_sub_newlines a ++ Text.nl ++ Text.re_sub_newlines b)%string)
  /\ Text.remove_newlines (page_text soup) = Text.remove_newlines raw
  /\ (raw = ("A" ++ Text.newlines 3 ++ "B")%string ->
      page_text soup = ("A" ++ Text.nl ++ "B")%string).
Proof.
  intros raw. unfold page_text. fold raw.
  split; [reflexivity|]. split; [apply TextFacts.sub_newlines_no_blank_line|].
  split; [|split].
  - intros a b k Ha Hb ->. now apply TextFacts.re_sub_newlines_run.
  - apply TextFacts.sub_newlines_keeps_others.
  - intros ->. reflexivity.
Qed.

Lemma content_has_no_blank_lines_witness :
  raw_text (decompose_all removed_tags Example.blank_lines_page)
  = ("A" ++ Text.newlines 3 ++ "B")%string
  /\ page_text Example.blank_lines_page = ("A" ++ Text.nl ++ "B")%string.
Proof.
  split; [reflexivity|].
  apply (proj2 (proj2 (proj2 (proj2
           (content_has_no_blank_lines Example.blank_lines_page))))).
  reflexivity.
Defined.















Example main_wins_over_article :
  page_title Example.main_article_page = "Home"
  /\ page_text Example.main_article_page = "Body text".
Proof. split; reflexivity. Qed.

Example results_page_limit_2 :
  parse_results Example.results_page 2
  = ([Inspected Example.result_1; Inspected Example.result_no_link;
      Inspected Example.result_2],
     inr [ {| SearchResult.title := "Alpha";
              SearchResult.url := Some "https://a.example/";
              SearchResult.description := "first" |};
           {| SearchResult.title := "Beta";
              SearchResult.url := Some "https://b.example/";
              SearchResult.description := EmptyString |} ]).
Proof. reflexivity. Qed.

(** ** The handlers *)

Section Handlers.
Variable send : Httpx.request -> exn + Httpx.response.
Variable BeautifulSoup : string -> exn + node.

Lemma parse_results_returns (soup : node) (N : Z) :
  exists results, outcome (parse_results soup N) = inr results.
Proof. apply LoopFacts.for_result_returns. Qed.

(** The three places where [search_duckduckgo] can raise. *)
Lemma search_duckduckgo_get_raises q limit e :
  send (get_request search_url false) = inl e ->
  outcome (search_duckduckgo send BeautifulSoup q limit) = inl e.
Proof.
  intros H. unfold search_duckduckgo, client_get, call, bind.
  now rewrite H.
Qed.

Lemma search_duckduckgo_post_raises q limit r e :
  send (get_request search_url false) = inr r ->
  send (post_request search_url [("q", q); ("kl", EmptyString)] (Httpx.cookies r))
  = inl e ->
  outcome (search_duckduckgo send BeautifulSoup q limit) = inl e.
Proof.
  intros H1 H2. unfold search_duckduckgo, client_get, client_post, call, bind.
  now rewrite H1, H2.
Qed.

Lemma search_duckduckgo_parser_raises q limit r r' e :
  send (get_request search_url false) = inr r ->
  send (post_request search_url [("q", q); ("kl", EmptyString)] (Httpx.cookies r))
  = inr r' ->
  BeautifulSoup (Httpx.text r') = inl e ->
  outcome (search_duckduckgo send BeautifulSoup q limit) = inl e.
Proof.
  intros H1 H2 H3.
  unfold search_duckduckgo, client_get, client_post, call, bind.
  now rewrite H1, H2, H3.
Qed.

Lemma search_outcome q limit :
  outcome (search send BeautifulSoup q limit)
  = match outcome (search_duckduckgo send BeautifulSoup q limit) with
    | inr results =>
        Returns (SearchResponse.Ok q (Z.of_nat (List.length results)) results)
    | inl e => Returns (SearchResponse.Failed q (str e) [])
    end.
Proof.
  unfold search, try_except.
  destruct (search_duckduckgo send BeautifulSoup q limit) as [t [e|rs]];
    reflexivity.
Qed.
End Handlers.

(** C2, as amended.  Whatever the client and the parser do, [/search]
    answers with status 200.  When the fetch or the parse raises an
    exception e, the body is query q, error str(e) and an empty result
    list; the error string is the exception's own message, non-empty when
    that message is. *)
Theorem search_failure_is_success_shaped
        (send : Httpx.request -> exn + Httpx.response)
        (BeautifulSoup : string -> exn + node) (q : string) (limit : Z) :
  http_status (outcome (search send BeautifulSoup q limit)) = 200%Z
  /\ (forall e,
        outcome (search_duckduckgo send BeautifulSoup q limit) = inl e ->
        outcome (search send BeautifulSoup q limit)
        = Returns (SearchResponse.Failed q (str e) []))
  /\ (forall e,
        send (get_request search_url false) = inl e ->
        outcome (search send BeautifulSoup q limit)
        = Returns (SearchResponse.Failed q (str e) []))
  /\ (forall r e,
        send (get_request search_url false) = inr r ->
        send (post_request search_url [("q", q); ("kl", EmptyString)] (Httpx.cookies r))
        = inl e ->
        outcome (search send BeautifulSoup q limit)
        = Returns (SearchResponse.Failed q (str e) []))
  /\ (forall r r' e,
        send (get_request search_url false) = inr r ->
        send (post_request search_url [("q", q); ("kl", EmptyString)] (Httpx.cookies r))
        = inr r' ->
        BeautifulSoup (Httpx.text r') = inl e ->
        outcome (search send BeautifulSoup q limit)
        = Returns (SearchResponse.Failed q (str e) [])).
Proof.
  rewrite search_outcome. repeat split.
  - now destruct (outcome (search_duckduckgo send BeautifulSoup q limit)).
  - now intros e ->.
  - intros e H.
    now rewrite (search_duckduckgo_get_raises send BeautifulSoup q limit e H).
  - intros r e H1 H2.
    now rewrite (search_duckduckgo_post_raises send BeautifulSoup q limit r e H1 H2).
  - intros r r' e H1 H2 H3.
    now rewrite (search_duckduckgo_parser_raises send BeautifulSoup q limit
                   r r' e H1 H2 H3).
Qed.

Lemma search_failure_is_success_shaped_witness :
  outcome (search Example.send_dns (Example.parse_to Example.results_page)
                  "test" 5)
  = Returns (SearchResponse.Failed
               "test" "[Errno -2] Name or service not known" []).
Proof.
  apply (proj1 (proj2 (proj2
           (search_failure_is_success_shaped
              Example.send_dns (Example.parse_to Example.results_page)
              "test" 5%Z)))
           (Exn true "[Errno -2] Name or service not known")).
  reflexivity.
Defined.

(** C2 as stated fails: the error string can be empty.  A timeout whose
    exception carries no message gives an empty error string. *)
Lemma search_error_can_be_empty_counterexample :
  outcome (search_duckduckgo Example.send_timeout
             (Example.parse_to Example.results_page) "test" 5)
  = inl (Exn true EmptyString)
  /\ outcome (search Example.send_timeout
                (Example.parse_to Example.results_page) "test" 5)
     = Returns (SearchResponse.Failed "test" EmptyString [])
  /\ ~ (exists msg,
          msg <> EmptyString
          /\ outcome (search Example.send_timeout
                        (Example.parse_to Example.results_page) "test" 5)
             = Returns (SearchResponse.Failed "test" msg [])).
Proof.
  split; [reflexivity|]. split; [reflexivity|].
  intros (msg & Hmsg & H). vm_compute in H.
  apply Hmsg. now injection H.
Qed.

(** C3, as amended.  [/read] goes by the class of what is raised inside
    its try block.  An [httpx.RequestError] (the transport failures: DNS,
    TLS, timeout, connection refused) gives HTTP 400 with detail
    "Error fetching URL: " and the message.  Any other exception gives
    HTTP 500 with detail "Error parsing content: " and the message,
    whether the extraction raised it after the fetch was answered or the
    fetch itself did.  When nothing is raised the handler returns url,
    title, content and status_code, with status 200.  A fetch that
    raises, of either class, ends the call before the parser is called.
    These cases are all there are. *)
Theorem read_failure_statuses
        (send : Httpx.request -> exn + Httpx.response)
        (BeautifulSoup : string -> exn + node) (url : string) :
  (forall e,
     send (get_request url true) = inl e ->
     read send BeautifulSoup url
     = ([Sent (get_request url true)],
        if is_request_error e
        then RaisesHTTP 400 ("Error fetching URL: " ++ str e)
        else RaisesHTTP 500 ("Error parsing content: " ++ str e))
     /\ http_status (outcome (read send BeautifulSoup url))
        = (if is_request_error e then 400 else 500)%Z
     /\ forall html, ~ In (Parsed html) (trace (read send BeautifulSoup url)))
  /\ (forall response e,
        send (get_request url true) = inr response ->
        BeautifulSoup (Httpx.text response) = inl e ->
        read send BeautifulSoup url
        = ([Sent (get_request url true); Parsed (Httpx.text response)],
           if is_request_error e
           then RaisesHTTP 400 ("Error fetching URL: " ++ str e)
           else RaisesHTTP 500 ("Error parsing content: " ++ str e))
        /\ http_status (outcome (read send BeautifulSoup url))
           = (if is_request_error e then 400 else 500)%Z)
  /\ (forall response soup,
        send (get_request url true) = inr response ->
        BeautifulSoup (Httpx.text response) = inr soup ->
        read send BeautifulSoup url
        = ([Sent (get_request url true); Parsed (Httpx.text response)],
           Returns {| PageContent.url := Httpx.url response;
                      PageContent.title := page_title soup;
                      PageContent.content := page_text soup;
                      PageContent.status_code := Httpx.status_code response |})
        /\ http_status (outcome (read send BeautifulSoup url)) = 200%Z)
  /\ ((exists e, send (get_request url true) = inl e)
      \/ (exists response e,
            send (get_request url true) = inr response
            /\ BeautifulSoup (Httpx.text response) = inl e)
      \/ (exists response soup,
            send (get_request url true) = inr response
            /\ BeautifulSoup (Httpx.text response) = inr soup)).
Proof.
  unfold read, read_url, client_get, call, bind, try_except.
  split; [|split; [|split]].
  - intros e ->. destruct (is_request_error e); simpl; repeat split;
      intros html [H | []]; discriminate H.
  - intros response e -> ->.
    destruct (is_request_error e); split; reflexivity.
  - intros response soup -> ->. split; reflexivity.
  - destruct (send (get_request url true)) as [e|response];
      [left; now exists e|].
    right. destruct (BeautifulSoup (Httpx.text response)) as [e|soup] eqn:E;
      [left; now exists response, e | right; now exists response, soup].
Qed.

Lemma read_failure_statuses_witness :
  read Example.send_dns Example.parse_fails "http://no-such-host.invalid/"
  = ([Sent (get_request "http://no-such-host.invalid/" true)],
     RaisesHTTP 400
       "Error fetching URL: [Errno -2] Name or service not known")
  /\ read (Example.send_status 200) Example.parse_fails "https://example.org/"
     = ([Sent (get_request "https://example.org/" true); Parsed "<html>"],
        RaisesHTTP 500
          "Error parsing content: maximum recursion depth exceeded")
  /\ read (Example.send_status 200)
          (Example.parse_to Example.main_article_page) "https://example.org/"
     = ([Sent (get_request "https://example.org/" true); Parsed "<html>"],
        Returns {| PageContent.url := "https://example.org/final";
                   PageContent.title := "Home";
                   PageContent.content := "Body text";
                   PageContent.status_code := 200 |}).
Proof.
  split; [|split].
  - apply (proj1 (read_failure_statuses Example.send_dns Example.parse_fails
                    "http://no-such-host.invalid/")
             (Exn true "[Errno -2] Name or service not known")).
    reflexivity.
  - apply (proj1 (proj2 (read_failure_statuses (Example.send_status 200)
                           Example.parse_fails "https://example.org/"))
             (Example.page_response 200)
             (Exn false "maximum recursion depth exceeded"));
      reflexivity.
  - apply (proj1 (proj2 (proj2
             (read_failure_statuses (Example.send_status 200)
                (Example.parse_to Example.main_article_page)
                "https://example.org/")))
             (Example.page_response 200) Example.main_article_page);
      reflexivity.
Defined.

(** C3 as stated fails: a fetch can raise something that is not a
    transport error.  The parser is then never called, so no extraction
    has failed either, and the claim's last case would have the handler
    return with status 200; it raises HTTP 500 instead. *)
Lemma read_otherwise_is_not_200_counterexample :
  Example.send_invalid_url (get_request "http://example.org:x/" true)
  = inl (Exn false "Invalid port: 'x'")
  /\ is_request_error (Exn false "Invalid port: 'x'") = false
  /\ parses (trace (read Example.send_invalid_url
                         (Example.parse_to Example.section_page)
                         "http://example.org:x/")) = []
  /\ outcome (read Example.send_invalid_url
                   (Example.parse_to Example.section_page)
                   "http://example.org:x/")
     = RaisesHTTP 500 "Error parsing content: Invalid port: 'x'"
  /\ http_status (outcome (read Example.send_invalid_url
                              (Example.parse_to Example.section_page)
                              "http://example.org:x/")) <> 200%Z.
Proof.
  repeat split. vm_compute. discriminate.
Qed.

(** C9.  When the fetch answers, whatever status code the upstream server
    gave (404 and 500 included), [/read] goes on to parse the body it got
    and, the extraction not raising, returns the success-shaped value with
    status 200; the upstream code is copied into status_code. *)
Theorem upstream_status_passed_through
        (send : Httpx.request -> exn + Httpx.response)
        (BeautifulSoup : string -> exn + node) (url : string)
        (response : Httpx.response) (soup : node) :
  send (get_request url true) = inr response ->
  BeautifulSoup (Httpx.text response) = inr soup ->
  outcome (read send BeautifulSoup url)
  = Returns {| PageContent.url := Httpx.url response;
               PageContent.title := page_title soup;
               PageContent.content := page_text soup;
               PageContent.status_code := Httpx.status_code response |}
  /\ http_status (outcome (read send BeautifulSoup url)) = 200%Z
  /\ trace (read send BeautifulSoup url)
     = [Sent (get_request url true); Parsed (Httpx.text response)].
Proof.
  intros H1 H2.
  unfold read, read_url, client_get, call, bind, try_except.
  rewrite H1, H2. repeat split.
Qed.

Lemma upstream_status_passed_through_witness :
  outcome (read (Example.send_status 404)
                (Example.parse_to Example.main_article_page)
                "https://example.org/missing")
  = Returns {| PageContent.url := "https://example.org/final";
               PageContent.title := "Home";
               PageContent.content := "Body text";
               PageContent.status_code := 404 |}.
Proof.
  apply (upstream_status_passed_through
           (Example.send_status 404)
           (Example.parse_to Example.main_article_page)
           "https://example.org/missing"
           (Example.page_response 404) Example.main_article_page);
    reflexivity.
Defined.

(** * Further properties of the code *)

(** ** Stripping and the newline substitution *)

Module StripFacts.
Import Text.
Local Open Scope string_scope.

Lemma ends_with_space_cons (c : ascii) (s : string) :
  s <> EmptyString -> ends_with_space (String c s) = ends_with_space s.
Proof. destruct s; [congruence | reflexivity]. Qed.

Lemma lstrip_head (s : string) : starts_with_space (lstrip s) = false.
Proof.
  induction s as [|c r IH]; simpl; [reflexivity|].
  destruct (isspace c) eqn:E; [exact IH | exact E].
Qed.

Lemma rstrip_tail (s : string) : ends_with_space (rstrip s) = false.
Proof.
  induction s as [|c r IH]; simpl; [reflexivity|].
  destruct (rstrip r) as [|d r'] eqn:E.
  - destruct (isspace c) eqn:Ec; simpl; [reflexivity | exact Ec].
  - rewrite ends_with_space_cons by discriminate. exact IH.
Qed.

Lemma rstrip_head (s : string) :
  starts_with_space s = false -> starts_with_space (rstrip s) = false.
Proof.
  destruct s as [|c r]; simpl; [reflexivity|]. intros Hc.
  destruct (rstrip r); [rewrite Hc|]; simpl; exact Hc.
Qed.

Lemma rstrip_cons (c : ascii) (r : string) :
  rstrip (String c r)
  = match rstrip r with
    | EmptyString => if isspace c then EmptyString else String c EmptyString
    | r' => String c r'
    end.
Proof. reflexivity. Qed.

Lemma rstrip_fixed (s : string) : ends_with_space s = false -> rstrip s = s.
Proof.
  induction s as [|c r IH]; [reflexivity|].
  destruct r as [|d r'].
  - simpl. now intros ->.
  - intros H. rewrite ends_with_space_cons in H by discriminate.
    now rewrite rstrip_cons, (IH H).
Qed.

Lemma lstrip_fixed (s : string) : starts_with_space s = false -> lstrip s = s.
Proof. destruct s as [|c r]; simpl; [reflexivity|]. now intros ->. Qed.

Lemma strip_fixed (s : string) :
  starts_with_space s = false -> ends_with_space s = false -> strip s = s.
Proof.
  intros Hs He. unfold strip. rewrite (lstrip_fixed s Hs). now apply rstrip_fixed.
Qed.

Lemma strip_ends (s : string) :
  starts_with_space (strip s) = false /\ ends_with_space (strip s) = false.
Proof.
  unfold strip. split; [apply rstrip_head, lstrip_head | apply rstrip_tail].
Qed.

Lemma starts_with_space_app (a b : string) :
  a <> EmptyString -> starts_with_space (a ++ b) = starts_with_space a.
Proof. destruct a; [congruence | reflexivity]. Qed.

Lemma app_not_empty_r (a b : string) : b <> EmptyString -> a ++ b <> EmptyString.
Proof. destruct a; simpl; [auto | discriminate]. Qed.

Lemma ends_with_space_app (a b : string) :
  b <> EmptyString -> ends_with_space (a ++ b) = ends_with_space b.
Proof.
  intros Hb. induction a as [|c a IH]; [reflexivity|].
  change (String c a ++ b) with (String c (a ++ b)).
  rewrite ends_with_space_cons by now apply app_not_empty_r.
  exact IH.
Qed.

Lemma join_not_empty (sep p : string) (rest : list string) :
  p <> EmptyString -> join sep (p :: rest) <> EmptyString.
Proof.
  intros Hp. destruct rest; simpl; [exact Hp|].
  destruct p; [congruence | discriminate].
Qed.

(** Pieces that are non-empty and have no space at either end join into
    a string with no space at either end. *)
Lemma join_ends (sep : string) (pieces : list string) :
  Forall (fun p => p <> EmptyString /\ starts_with_space p = false
                   /\ ends_with_space p = false) pieces ->
  starts_with_space (join sep pieces) = false
  /\ ends_with_space (join sep pieces) = false.
Proof.
  induction 1 as [|p rest (Hp & Hs & He) Hrest IH]; [split; reflexivity|].
  destruct rest as [|q rest]; [now split|].
  change (join sep (p :: q :: rest)) with (p ++ sep ++ join sep (q :: rest)).
  assert (Hq : q <> EmptyString) by (inversion Hrest; tauto).
  pose proof (join_not_empty sep q rest Hq) as Hj.
  split.
  - now rewrite starts_with_space_app.
  - rewrite !ends_with_space_app; auto using app_not_empty_r. tauto.
Qed.

Lemma stripped_pieces (l : list string) :
  Forall (fun p => p <> EmptyString /\ starts_with_space p = false
                   /\ ends_with_space p = false) (Dom.stripped l).
Proof.
  apply Forall_forall. intros p Hp. unfold Dom.stripped in Hp.
  apply filter_In in Hp. destruct Hp as [Hin Hne].
  apply in_map_iff in Hin. destruct Hin as (s & <- & _).
  split; [|apply strip_ends].
  intros E. rewrite E in Hne. discriminate.
Qed.

Lemma is_newline_space (c : ascii) : is_newline c = true -> isspace c = true.
Proof.
  unfold is_newline. intros H. apply Ascii.eqb_eq in H. now subst.
Qed.

Lemma not_space_not_newline (c : ascii) : isspace c = false -> is_newline c = false.
Proof.
  intros H. destruct (is_newline c) eqn:E; [|reflexivity].
  apply is_newline_space in E. congruence.
Qed.

Lemma sub_newlines_head (m : bool) (s : string) :
  starts_with_space s = false -> starts_with_space (sub_newlines m s) = false.
Proof.
  destruct s as [|c r]; simpl; [reflexivity|]. intros Hc.
  now rewrite (not_space_not_newline c Hc).
Qed.

Lemma sub_newlines_cons (m : bool) (c : ascii) (r : string) :
  sub_newlines m (String c r)
  = if is_newline c
    then if m then sub_newlines true r else String newline (sub_newlines true r)
    else String c (sub_newlines false r).
Proof. reflexivity. Qed.

Lemma sub_newlines_tail (s : string) :
  forall m, s <> EmptyString -> ends_with_space s = false ->
  sub_newlines m s <> EmptyString
  /\ ends_with_space (sub_newlines m s) = false.
Proof.
  induction s as [|c r IH]; intros m Hne He; [congruence|].
  destruct r as [|d r'].
  - simpl in He. simpl. rewrite (not_space_not_newline c He).
    split; [discriminate | exact He].
  - rewrite ends_with_space_cons in He by discriminate.
    assert (Hr : String d r' <> EmptyString) by discriminate.
    rewrite sub_newlines_cons.
    destruct (is_newline c); [destruct m|].
    + exact (IH true Hr He).
    + destruct (IH true Hr He) as [H1 H2].
      split; [discriminate|]. now rewrite ends_with_space_cons.
    + destruct (IH false Hr He) as [H1 H2].
      split; [discriminate|]. now rewrite ends_with_space_cons.
Qed.

Lemma re_sub_newlines_ends (s : string) :
  starts_with_space s = false -> ends_with_space s = false ->
  starts_with_space (re_sub_newlines s) = false
  /\ ends_with_space (re_sub_newlines s) = false.
Proof.
  intros Hs He. split; [now apply sub_newlines_head|].
  destruct s as [|c r]; [reflexivity|].
  apply sub_newlines_tail; [discriminate | exact He].
Qed.

Lemma sub_newlines_fixed (s : string) :
  forall m, no_blank_line s ->
            (m = true -> starts_with_newline s = false) ->
            sub_newlines m s = s.
Proof.
  induction s as [|c r IH]; intros m Hs Hm; [reflexivity|].
  destruct Hs as [Hcd Hr]. cbn [sub_newlines].
  destruct (is_newline c) eqn:E.
  - destruct m; [specialize (Hm eq_refl); simpl in Hm; congruence|].
    apply Ascii.eqb_eq in E as Ec. rewrite <- Ec. f_equal.
    apply IH; [exact Hr|]. intros _.
    destruct r as [|d r']; [reflexivity|]. simpl.
    destruct (is_newline d) eqn:Ed; [|reflexivity].
    exfalso. apply Hcd. now split.
  - f_equal. apply IH; [exact Hr | discriminate].
Qed.

Lemma sub_newlines_length (s : string) :
  forall m, (String.length (sub_newlines m s) <= String.length s)%nat.
Proof.
  induction s as [|c r IH]; intros m; simpl; [lia|].
  destruct (is_newline c); [destruct m|]; simpl.
  - specialize (IH true). lia.
  - specialize (IH true). lia.
  - specialize (IH false). lia.
Qed.

End StripFacts.

(** X1.  The text [get_text(separator=sep, strip=True)] returns has no
    white space at either end, whatever the separator and the node:
    stripping it again changes nothing.  This is the form of every title
    and description the program emits. *)
Theorem get_text_is_stripped (sep : string) (n : node) :
  Text.strip (get_text sep n) = get_text sep n.
Proof.
  unfold get_text.
  destruct (StripFacts.join_ends sep _ (StripFacts.stripped_pieces (all_strings n)))
    as [Hs He].
  now apply StripFacts.strip_fixed.
Qed.

(** X2.  The content string of a page has no white space at either end:
    it neither starts nor ends with a newline or a space. *)
Theorem page_text_is_stripped (soup : node) :
  Text.strip (page_text soup) = page_text soup
  /\ Text.starts_with_newline (page_text soup) = false
  /\ Text.ends_with_newline (page_text soup) = false.
Proof.
  assert (H : Text.starts_with_space (page_text soup) = false
              /\ Text.ends_with_space (page_text soup) = false).
  { unfold page_text, raw_text.
    destruct (main_content (decompose_all removed_tags soup)) as [c|];
      unfold get_text;
      apply StripFacts.re_sub_newlines_ends;
      apply (StripFacts.join_ends Text.nl _ (StripFacts.stripped_pieces _)). }
  destruct H as [Hs He]. split; [now apply StripFacts.strip_fixed|].
  split.
  - destruct (page_text soup) as [|c r]; [reflexivity|]. simpl in *.
    now apply StripFacts.not_space_not_newline.
  - clear Hs. induction (page_text soup) as [|c r IH]; [reflexivity|].
    destruct r as [|d r'].
    + simpl in *. now apply StripFacts.not_space_not_newline.
    + rewrite StripFacts.ends_with_space_cons in He by discriminate.
      exact (IH He).
Qed.

(** X3.  The substitution of line 93 leaves a text alone exactly when the
    text has no two newlines in a row; applying it twice is the same as
    applying it once; and it never makes a text longer. *)
Theorem re_sub_newlines_fixed_point (s : string) :
  (Text.re_sub_newlines s = s <-> Text.no_blank_line s)
  /\ Text.re_sub_newlines (Text.re_sub_newlines s) = Text.re_sub_newlines s
  /\ (String.length (Text.re_sub_newlines s) <= String.length s)%nat.
Proof.
  assert (Hfix : forall t, Text.no_blank_line t -> Text.re_sub_newlines t = t).
  { intros t Ht. apply StripFacts.sub_newlines_fixed; [exact Ht | discriminate]. }
  split; [split|split].
  - intros <-. apply TextFacts.sub_newlines_no_blank_line.
  - apply Hfix.
  - apply Hfix, TextFacts.sub_newlines_no_blank_line.
  - apply StripFacts.sub_newlines_length.
Qed.

(** ** The removal step and the choice of the container *)

Lemma name_in_decompose (names : list string) (n : node) :
  name_in names (decompose_all names n) = name_in names n.
Proof. destruct n; reflexivity. Qed.

Lemma decompose_leaves_none (names : list string) (n : node) :
  no_match (name_in names) (decompose_all names n).
Proof.
  unfold no_match.
  induction n as [nm cl attrs cs IH| |] using node_induction;
    simpl; try (intros x []).
  intros x Hx. apply in_flat_map in Hx. destruct Hx as (c' & Hc' & Hx).
  apply in_flat_map in Hc'. destruct Hc' as (c & Hc & Hc').
  rewrite Forall_forall in IH.
  destruct (name_in names c) eqn:E; [destruct Hc'|].
  destruct Hc' as [<- | []].
  destruct Hx as [<- | Hx].
  - now rewrite name_in_decompose.
  - exact (IH c Hc x Hx).
Qed.

Lemma decompose_without (names : list string) (n : node) :
  no_match (name_in names) n -> decompose_all names n = n.
Proof.
  unfold no_match.
  induction n as [nm cl attrs cs IH| |] using node_induction;
    intros H; try reflexivity.
  simpl. f_equal. simpl in H.
  induction IH as [|c cs Hc _ IHcs]; [reflexivity|].
  simpl in H. simpl.
  rewrite (H c (or_introl eq_refl)). simpl. f_equal.
  - apply Hc. intros x Hx. apply H. right. apply in_or_app. now left.
  - apply IHcs. intros x Hx. apply H. right. apply in_or_app. now right.
Qed.

(** X4.  After the removal step no element named in the list is left
    anywhere in the tree; on a tree that has none the step changes
    nothing; so running it a second time changes nothing. *)
Theorem decompose_all_removes_every_one (names : list string) (n : node) :
  (forall x, In x (descendants (decompose_all names n)) ->
             name_in names x = false)
  /\ ((forall x, In x (descendants n) -> name_in names x = false) ->
      decompose_all names n = n)
  /\ decompose_all names (decompose_all names n) = decompose_all names n.
Proof.
  split; [apply decompose_leaves_none|]. split; [apply decompose_without|].
  apply decompose_without, decompose_leaves_none.
Qed.

Lemma decompose_all_removes_every_one_witness :
  decompose_all removed_tags Example.section_page = Example.section_page.
Proof.
  apply (proj1 (proj2 (decompose_all_removes_every_one
                         removed_tags Example.section_page))).
  refine (proj1 (DomFacts.find_none_all _ _) _). reflexivity.
Defined.

(** X5.  The container [read_url] picks, when it picks one, is an element
    of the tree named main, article, div or body, never a text node or a
    comment; picked after the removal step, it has none of the removed
    elements in it. *)
Theorem main_content_is_container (soup e : node) :
  main_content (decompose_all removed_tags soup) = Some e ->
  In e (descendants (decompose_all removed_tags soup))
  /\ is_tag e = true
  /\ name_in ["main"; "article"; "div"; "body"] e = true
  /\ (forall x, In x (descendants e) -> name_in removed_tags x = false).
Proof.
  intros H. pose proof (main_content_below _ _ H) as Hin.
  split; [exact Hin|].
  assert (Hname : name_in ["main"; "article"; "div"; "body"] e = true).
  { revert H. unfold main_content, or_else, find.
    repeat match goal with
           | |- context [List.find ?p ?l] =>
               let E := fresh "E" in
               destruct (List.find p l) eqn:E;
               [ intros [= ->]; apply find_some in E; destruct E as [_ E];
                 destruct e as [nm cl attrs cs| |]; simpl in *;
                 try discriminate;
                 try (apply andb_true_iff in E; destruct E as [E _]);
                 rewrite E; rewrite ?orb_true_r; reflexivity
               | clear E ]
           end.
    discriminate. }
  split; [destruct e; [reflexivity | discriminate | discriminate]|].
  split; [exact Hname|].
  intros x Hx.
  destruct (DomFacts.descendants_block _ e Hin) as (pre & post & Hblock).
  apply (decompose_leaves_none removed_tags soup).
  rewrite Hblock. apply in_or_app. right. apply in_or_app. left. now right.
Qed.

Lemma main_content_is_container_witness :
  is_tag Example.main_elem_cleaned = true
  /\ name_in ["main"; "article"; "div"; "body"] Example.main_elem_cleaned = true.
Proof.
  pose proof (main_content_is_container
                Example.main_article_page Example.main_elem_cleaned eq_refl)
    as (_ & H1 & H2 & _).
  split; [exact H1 | exact H2].
Defined.

Lemma stripped_nothing (l : list string) :
  (forall s, In s l -> Text.strip s = EmptyString) -> stripped l = [].
Proof.
  intros H. unfold stripped. induction l as [|s l IH]; [reflexivity|].
  simpl. rewrite (H s (or_introl eq_refl)). simpl.
  apply IH. intros t Ht. apply H. now right.
Qed.

(** X6.  A page whose text nodes outside the removed elements are all
    empty or white space gives the empty content string: text inside
    scripts, styles, navs, headers, footers and asides, and comments, do
    not count. *)
Theorem no_visible_text_empty_content (soup : node) :
  (forall s, In s (strings_outside removed_tags soup) ->
             Text.strip s = EmptyString) ->
  page_text soup = EmptyString.
Proof.
  intros H. rewrite <- DomFacts.all_strings_decompose_outside in H.
  unfold page_text, raw_text, get_text.
  destruct (main_content (decompose_all removed_tags soup)) as [c|] eqn:E.
  - apply main_content_below in E.
    destruct (DomFacts.all_strings_block _ c E) as (pre & post & Hblock).
    rewrite stripped_nothing; [reflexivity|].
    intros s Hs. apply H. rewrite Hblock.
    apply in_or_app. right. apply in_or_app. now left.
  - now rewrite (stripped_nothing _ H).
Qed.

Lemma no_visible_text_empty_content_witness :
  page_text Example.script_only_page = EmptyString.
Proof.
  apply (no_visible_text_empty_content Example.script_only_page).
  intros s [<- | []]. reflexivity.
Defined.

(** ** The result loop at its edges *)

(** X7.  With a limit of zero or less the loop does not return an empty
    list: it runs its body on the first result, adds that result's record
    when the result is valid, and stops there.  (The route refuses such a
    limit; a direct call of [search_duckduckgo] can pass one.) *)
Theorem nonpositive_limit_takes_first (soup : node) (N : Z) :
  (N <= 0)%Z ->
  parse_results soup N
  = (map Inspected (firstn 1 (select "result" soup)),
     inr (entries (firstn 1 (select "result" soup)))).
Proof.
  intros HN. unfold parse_results.
  destruct (select "result" soup) as [|r rest]; [reflexivity|].
  rewrite LoopFacts.for_result_cons. rewrite Z.geb_leb.
  destruct (Z.leb_spec N (Z.of_nat (List.length ([] ++ entry r)))) as [_|H];
    [|lia].
  simpl. now rewrite app_nil_r.
Qed.

Lemma nonpositive_limit_takes_first_witness :
  parse_results Example.results_page 0
  = ([Inspected Example.result_1],
     inr [record Example.result_1
            (Example.link (Some "https://a.example/") "Alpha")]).
Proof.
  rewrite (nonpositive_limit_takes_first Example.results_page 0 ltac:(lia)).
  reflexivity.
Defined.

Lemma for_result_trace (todo : list node) :
  forall acc N,
    requests (trace (for_result todo acc N)) = []
    /\ parses (trace (for_result todo acc N)) = [].
Proof.
  induction todo as [|r rest IH]; intros acc N; [split; reflexivity|].
  rewrite LoopFacts.for_result_cons.
  destruct (Z.of_nat _ >=? N)%Z; [split; reflexivity|].
  exact (IH (acc ++ entry r) N).
Qed.

(** ** The search fetch *)

Section SearchFetch.
Variable send : Httpx.request -> exn + Httpx.response.
Variable BeautifulSoup : string -> exn + node.

Lemma search_duckduckgo_run q limit :
  search_duckduckgo send BeautifulSoup q limit
  = match send (get_request search_url false) with
    | inl e => ([Sent (get_request search_url false)], inl e)
    | inr r1 =>
        let post := post_request search_url [("q", q); ("kl", EmptyString)]
                                 (Httpx.cookies r1) in
        match send post with
        | inl e => ([Sent (get_request search_url false); Sent post], inl e)
        | inr r2 =>
            match BeautifulSoup (Httpx.text r2) with
            | inl e =>
                ([Sent (get_request search_url false); Sent post;
                  Parsed (Httpx.text r2)], inl e)
            | inr soup =>
                ([Sent (get_request search_url false); Sent post;
                  Parsed (Httpx.text r2)]
                   ++ trace (parse_results soup limit),
                 outcome (parse_results soup limit))
            end
        end
    end.
Proof.
  unfold search_duckduckgo, client_get, client_post, call, bind.
  destruct (send (get_request search_url false)) as [e|r1]; [reflexivity|].
  cbv zeta.
  destruct (send (post_request search_url _ (Httpx.cookies r1))) as [e|r2];
    [reflexivity|].
  destruct (BeautifulSoup (Httpx.text r2)) as [e|soup]; [reflexivity|].
  destruct (parse_results soup limit) as [t o]. reflexivity.
Qed.

Lemma search_trace q limit :
  trace (search send BeautifulSoup q limit)
  = trace (search_duckduckgo send BeautifulSoup q limit).
Proof.
  unfold search, try_except.
  now destruct (search_duckduckgo send BeautifulSoup q limit) as [t [e|rs]].
Qed.

End SearchFetch.

(** X8.  When both calls are answered and the page parses, with a limit
    of at least one, [/search] returns the first [limit] records of the
    valid results of the page it got from the POST, and results_count is
    the smaller of the limit and the number of valid results. *)
Theorem search_success_count
        (send : Httpx.request -> exn + Httpx.response)
        (BeautifulSoup : string -> exn + node) (q : string) (limit : Z)
        (r1 r2 : Httpx.response) (soup : node) :
  (1 <= limit)%Z ->
  send (get_request search_url false) = inr r1 ->
  send (post_request search_url [("q", q); ("kl", EmptyString)]
                     (Httpx.cookies r1)) = inr r2 ->
  BeautifulSoup (Httpx.text r2) = inr soup ->
  outcome (search send BeautifulSoup q limit)
  = Returns
      (SearchResponse.Ok q
         (Z.min limit
                (Z.of_nat (List.length (filter is_valid (select "result" soup)))))
         (firstn (Z.to_nat limit) (entries (select "result" soup)))).
Proof.
  intros HN H1 H2 H3. rewrite search_outcome, search_duckduckgo_run.
  rewrite H1. cbv zeta. rewrite H2, H3.
  unfold parse_results. cbn [outcome snd].
  change (snd (for_result (select "result" soup) [] limit))
    with (outcome (for_result (select "result" soup) [] limit)).
  rewrite for_result_firstn by exact HN.
  rewrite length_firstn, LoopFacts.entries_length.
  do 2 f_equal. lia.
Qed.

Lemma search_success_count_witness :
  outcome (search Example.send_both (Example.parse_to Example.results_page)
                  "test" 2)
  = Returns
      (SearchResponse.Ok "test" 2
         [record Example.result_1
                 (Example.link (Some "https://a.example/") "Alpha");
          record Example.result_2
                 (Example.link (Some "https://b.example/") "Beta")]).
Proof.
  rewrite (search_success_count
             Example.send_both (Example.parse_to Example.results_page)
             "test" 2 _ _ Example.results_page
             ltac:(lia) eq_refl eq_refl eq_refl).
  reflexivity.
Defined.

(** X9.  The search fetch is a GET of the search page and then a POST to
    the same address, with the same headers, the form fields q (the query
    as given) and kl (empty), and the cookies the GET was answered with;
    the page that is parsed is the answer to the POST; after that come
    only the runs of the loop body. *)
Theorem search_duckduckgo_protocol
        (send : Httpx.request -> exn + Httpx.response)
        (BeautifulSoup : string -> exn + node) (q : string) (limit : Z)
        (r1 r2 : Httpx.response) (soup : node) :
  send (get_request search_url false) = inr r1 ->
  send (post_request search_url [("q", q); ("kl", EmptyString)]
                     (Httpx.cookies r1)) = inr r2 ->
  BeautifulSoup (Httpx.text r2) = inr soup ->
  exists visited,
    trace (search_duckduckgo send BeautifulSoup q limit)
    = [Sent (Httpx.Request Httpx.GET search_url headers [] [] false 30);
       Sent (Httpx.Request Httpx.POST search_url headers
                           [("q", q); ("kl", EmptyString)]
                           (Httpx.cookies r1) false 30);
       Parsed (Httpx.text r2)]
        ++ map Inspected visited
    /\ (exists rest, select "result" soup = visited ++ rest).
Proof.
  intros H1 H2 H3. rewrite search_duckduckgo_run.
  rewrite H1. cbv zeta. rewrite H2, H3. cbn [trace fst].
  unfold parse_results.
  assert (Hloop : forall todo acc, exists visited rest,
             todo = visited ++ rest
             /\ fst (for_result todo acc limit) = map Inspected visited).
  { induction todo as [|r todo IH]; intros acc.
    - exists [], []. split; reflexivity.
    - rewrite LoopFacts.for_result_cons.
      destruct (Z.of_nat _ >=? limit)%Z.
      + exists [r], todo. split; reflexivity.
      + destruct (IH (acc ++ entry r)) as (visited & rest & -> & Hv).
        exists (r :: visited), rest. split; [reflexivity|].
        cbn [fst trace map]. unfold trace. now rewrite Hv. }
  destruct (Hloop (select "result" soup) []) as (visited & rest & Hs & Hv).
  exists visited. unfold trace. rewrite Hv. split; [reflexivity|].
  now exists rest.
Qed.

Lemma search_duckduckgo_protocol_witness :
  exists visited,
    trace (search_duckduckgo
             Example.send_both (Example.parse_to Example.results_page)
             "test" 2)
    = [Sent (Httpx.Request Httpx.GET search_url headers [] [] false 30);
       Sent (Httpx.Request Httpx.POST search_url headers
                           [("q", "test"); ("kl", EmptyString)]
                           [("kl", "wt-wt")] false 30);
       Parsed "<html>"]
        ++ map Inspected visited
    /\ (exists rest, select "result" Example.results_page = visited ++ rest).
Proof.
  apply (search_duckduckgo_protocol
           Example.send_both (Example.parse_to Example.results_page)
           "test" 2 (Example.answer search_url) (Example.answer search_url)
           Example.results_page);
    reflexivity.
Defined.

(** X10.  [/search] sends one request or two and never more: the POST goes
    out only when the GET was answered, no call is tried again, and the
    parser is called only when the POST was answered, on that answer. *)
Theorem search_sends_at_most_two
        (send : Httpx.request -> exn + Httpx.response)
        (BeautifulSoup : string -> exn + node) (q : string) (limit : Z) :
  let t := trace (search send BeautifulSoup q limit) in
  let get := get_request search_url false in
  let post := post_request search_url [("q", q); ("kl", EmptyString)] in
  ((exists e, send get = inl e) /\ requests t = [get] /\ parses t = [])
  \/ (exists r1,
        send get = inr r1
        /\ requests t = [get; post (Httpx.cookies r1)]
        /\ (((exists e, send (post (Httpx.cookies r1)) = inl e)
             /\ parses t = [])
            \/ (exists r2, send (post (Httpx.cookies r1)) = inr r2
                           /\ parses t = [Httpx.text r2]))).
Proof.
  intros t get post. subst t. rewrite search_trace, search_duckduckgo_run.
  fold get. destruct (send get) as [e|r1] eqn:H1.
  - left. split; [now exists e|]. split; reflexivity.
  - right. exists r1. split; [reflexivity|]. cbv zeta.
    fold (post (Httpx.cookies r1)).
    destruct (send (post (Httpx.cookies r1))) as [e|r2] eqn:H2.
    + split; [reflexivity|]. left. split; [now exists e | reflexivity].
    + destruct (BeautifulSoup (Httpx.text r2)) as [e|soup].
      * split; [reflexivity|]. right. exists r2. split; reflexivity.
      * destruct (for_result_trace (select "result" soup) [] limit)
          as [Hr Hp].
        unfold parse_results, trace in *. cbn [fst].
        unfold requests, parses in *.
        rewrite !flat_map_app, Hr, Hp.
        split; [reflexivity|]. right. exists r2. split; reflexivity.
Qed.

(** ** The read fetch *)

(** X11.  Whatever happens, [/read] sends exactly one request, a GET of
    the given address that follows redirects, and never a second one; it
    calls the parser at most once, and only on the body of an answer; and
    it ends by returning (status 200) or by raising HTTP 400 or HTTP 500:
    no other exception leaves it. *)
Theorem read_sends_one_request
        (send : Httpx.request -> exn + Httpx.response)
        (BeautifulSoup : string -> exn + node) (url : string) :
  requests (trace (read send BeautifulSoup url))
  = [Httpx.Request Httpx.GET url headers [] [] true 30]
  /\ ((exists e, send (get_request url true) = inl e)
      /\ parses (trace (read send BeautifulSoup url)) = []
      \/ (exists r, send (get_request url true) = inr r
                    /\ parses (trace (read send BeautifulSoup url))
                       = [Httpx.text r]))
  /\ ((exists page, outcome (read send BeautifulSoup url) = Returns page)
      \/ (exists detail,
             outcome (read send BeautifulSoup url) = RaisesHTTP 400 detail)
      \/ (exists detail,
             outcome (read send BeautifulSoup url) = RaisesHTTP 500 detail)).
Proof.
  unfold read, read_url, client_get, call, bind, try_except.
  destruct (send (get_request url true)) as [e|r] eqn:H1.
  - split; [reflexivity|]. split.
    + left. split; [now exists e | reflexivity].
    + right. destruct (is_request_error e); [left | right]; eexists;
        reflexivity.
  - destruct (BeautifulSoup (Httpx.text r)) as [e|soup].
    + split; [reflexivity|]. split.
      * right. exists r. split; reflexivity.
      * right. destruct (is_request_error e); [left | right]; eexists;
          reflexivity.
    + split; [reflexivity|]. split.
      * right. exists r. split; reflexivity.
      * left. eexists. reflexivity.
Qed.

(** X12.  The status [/read] raises goes by the class of the exception,
    not by the step that raised it: when the GET itself raises something
    that is not an [httpx.RequestError] (an address httpx refuses to
    parse, for one), the handler raises HTTP 500 with the detail
    "Error parsing content: " and the message, although the parser was
    never called. *)
Theorem read_fetch_other_exception
        (send : Httpx.request -> exn + Httpx.response)
        (BeautifulSoup : string -> exn + node) (url : string) (e : exn) :
  send (get_request url true) = inl e ->
  is_request_error e = false ->
  read send BeautifulSoup url
  = ([Sent (get_request url true)],
     RaisesHTTP 500 ("Error parsing content: " ++ str e))
  /\ parses (trace (read send BeautifulSoup url)) = [].
Proof.
  intros H1 H2. unfold read, read_url, client_get, call, bind, try_except.
  rewrite H1, H2. split; reflexivity.
Qed.

Lemma read_fetch_other_exception_witness :
  read Example.send_invalid_url (Example.parse_to Example.section_page)
       "http://example.org:x/"
  = ([Sent (get_request "http://example.org:x/" true)],
     RaisesHTTP 500 "Error parsing content: Invalid port: 'x'").
Proof.
  apply (read_fetch_other_exception
           Example.send_invalid_url (Example.parse_to Example.section_page)
           "http://example.org:x/" (Exn false "Invalid port: 'x'"));
    reflexivity.
Defined.

(** ** The routes *)

Lemma search_duckduckgo_results
      (send : Httpx.request -> exn + Httpx.response)
      (BeautifulSoup : string -> exn + node) (q : string) (limit : Z)
      (results : list SearchResult.t) :
  outcome (search_duckduckgo send BeautifulSoup q limit) = inr results ->
  exists soup, outcome (parse_results soup limit) = inr results.
Proof.
  rewrite search_duckduckgo_run.
  destruct (send (get_request search_url false)) as [e|r1]; [discriminate|].
  cbv zeta.
  destruct (send (post_request search_url _ (Httpx.cookies r1))) as [e|r2];
    [discriminate|].
  destruct (BeautifulSoup (Httpx.text r2)) as [e|soup]; [discriminate|].
  intros H. now exists soup.
Qed.

(** X13.  A [/search] request reaches the handler only with a query that
    is present and not empty and a limit between 1 and 50, 10 when none is
    given.  For such a request a successful answer has results_count
    equal to the number of results, at least 0 and at most the limit (so
    at most 50), and a failed one has no results. *)
Theorem search_route_bounds
        (send : Httpx.request -> exn + Httpx.response)
        (BeautifulSoup : string -> exn + node)
        (q : option string) (limit : option Z)
        (t : list event) (r : ending SearchResponse.t) :
  search_route send BeautifulSoup q limit = Some (t, r) ->
  exists q' limit',
    q = Some q' /\ q' <> EmptyString
    /\ (1 <= limit' <= 50)%Z
    /\ limit' = match limit with Some l => l | None => 10%Z end
    /\ (t, r) = search send BeautifulSoup q' limit'
    /\ match r with
       | Returns (SearchResponse.Ok query results_count results) =>
           query = q'
           /\ results_count = Z.of_nat (List.length results)
           /\ (0 <= results_count <= limit')%Z
       | Returns (SearchResponse.Failed query _ results) =>
           query = q' /\ results = []
       | _ => False
       end.
Proof.
  unfold search_route, search_params.
  destruct q as [q'|]; [|discriminate].
  destruct (1 <=? String.length q')%nat eqn:Hq; [|discriminate].
  assert (Hq' : q' <> EmptyString)
    by (intros ->; discriminate).
  assert (Hsearch : forall l, (1 <= l <= 50)%Z ->
            match outcome (search send BeautifulSoup q' l) with
            | Returns (SearchResponse.Ok query results_count results) =>
                query = q'
                /\ results_count = Z.of_nat (List.length results)
                /\ (0 <= results_count <= l)%Z
            | Returns (SearchResponse.Failed query _ results) =>
                query = q' /\ results = []
            | _ => False
            end).
  { intros l Hl. rewrite search_outcome.
    destruct (outcome (search_duckduckgo send BeautifulSoup q' l))
      as [e|results] eqn:E; [split; reflexivity|].
    split; [reflexivity|]. split; [reflexivity|].
    destruct (search_duckduckgo_results _ _ _ _ _ E) as (soup & Hsoup).
    unfold parse_results in Hsoup.
    rewrite for_result_firstn in Hsoup by lia.
    injection Hsoup as <-.
    pose proof (firstn_le_length (Z.to_nat l) (entries (select "result" soup))).
    rewrite length_firstn. lia. }
  destruct limit as [l|].
  - destruct ((1 <=? l) && (l <=? 50))%Z eqn:Hl; [|discriminate].
    apply andb_true_iff in Hl. destruct Hl as [H1 H2].
    apply Z.leb_le in H1, H2.
    intros [= H]. exists q', l.
    specialize (Hsearch l (conj H1 H2)). rewrite H in Hsearch.
    repeat split; auto.
  - intros [= H]. exists q', 10%Z.
    specialize (Hsearch 10%Z ltac:(lia)). rewrite H in Hsearch.
    repeat split; auto; lia.
Qed.

Lemma search_route_bounds_witness :
  exists q' limit',
    Some "test" = Some q' /\ q' <> EmptyString
    /\ (1 <= limit' <= 50)%Z
    /\ limit' = 10%Z
    /\ search Example.send_both (Example.parse_to Example.results_page)
              "test" 10
       = search Example.send_both (Example.parse_to Example.results_page)
                q' limit'.
Proof.
  destruct (search_route_bounds
              Example.send_both (Example.parse_to Example.results_page)
              (Some "test") None _ _ eq_refl)
    as (q' & l & H1 & H2 & H3 & H4 & H5 & _).
  exists q', l. repeat split; auto; lia.
Defined.

(** X14.  A request is refused before the handler runs, and nothing is
    sent, exactly when the query is missing or empty or the limit is
    given and lies outside 1..50; [/read] is refused exactly when the url
    is missing or empty. *)
Theorem routes_refuse
        (send : Httpx.request -> exn + Httpx.response)
        (BeautifulSoup : string -> exn + node) :
  (forall q limit,
     search_route send BeautifulSoup q limit = None
     <-> (q = None \/ q = Some EmptyString
          \/ exists l, limit = Some l /\ (l < 1 \/ 50 < l)%Z))
  /\ (forall url,
        read_route send BeautifulSoup url = None
        <-> (url = None \/ url = Some EmptyString)).
Proof.
  split.
  - intros q limit. unfold search_route, search_params.
    destruct q as [[|c q']|]; simpl.
    + split; [auto | reflexivity].
    + destruct limit as [l|].
      * destruct (Z.leb_spec 1 l) as [L1|L1], (Z.leb_spec l 50) as [L2|L2];
          simpl; split;
          try discriminate; try reflexivity;
          try (intros _; right; right; exists l; split; [reflexivity | lia]).
        intros [H | [H | (l' & [= <-] & H)]]; try discriminate. lia.
      * split; [discriminate|].
        intros [H | [H | (l' & H & _)]]; discriminate.
    + split; [auto | reflexivity].
  - intros url. unfold read_route, read_params.
    destruct url as [[|c u]|]; simpl.
    + split; [auto | reflexivity].
    + split; [discriminate|]. intros [H | H]; discriminate.
    + split; [auto | reflexivity].
Qed.

Lemma routes_refuse_witness :
  search_route Example.send_both (Example.parse_to Example.results_page)
               (Some "test") (Some 51%Z) = None
  /\ read_route Example.send_both (Example.parse_to Example.results_page)
                (Some EmptyString) = None.
Proof.
  split.
  - apply (proj1 (routes_refuse Example.send_both
                    (Example.parse_to Example.results_page))).
    right. right. exists 51%Z. split; [reflexivity | lia].
  - apply (proj2 (routes_refuse Example.send_both
                    (Example.parse_to Example.results_page))).
    right. reflexivity.
Defined.

Example post_failure_run :
  search Example.send_get_only (Example.parse_to Example.results_page) "test" 5
  = ([Sent (get_request search_url false);
      Sent (post_request search_url [("q", "test"); ("kl", EmptyString)]
                         [("kl", "wt-wt")])],
     Returns (SearchResponse.Failed "test" "Server disconnected" [])).
Proof. reflexivity. Qed.
